(** * centralTerminal.js: virtual file system, command dispatcher and addon
      session manager, as a shallow embedding.

    Conventions of the embedding.

    - A JavaScript string is a [string]; every [ascii] stands for one code unit
      below 256.  Text that only ever goes to the output sink (the connector
      glyphs of [tree]) is written as its UTF-8 bytes.
    - An object used as a dictionary ([children], [commands], [addons]) is the
      list of its own properties in the order [Object.keys] enumerates them.
      Such an object also answers to the names it inherits from
      [Object.prototype] ([Dict.inherited]): the guard of the create
      operations, the command lookup and the addon lookup take them into
      account.  Where [_resolvePath] would hand out an inherited member, which
      is no node of the tree, it returns [None]: every caller goes on to test
      [instanceof] and treats the two alike.  Registering a command or an
      addon under the name [__proto__], which replaces the prototype of the
      registry, is outside the embedding.
    - A reference to a node of the tree is the list of keys that leads from the
      root to it ([NodeRef]).  Every node object is created by [createFile] or
      [createDirectory] and stored under exactly one key of one directory, so
      two references are the same object exactly when the key lists agree.
    - A call that can raise an exception returns a [completion]: the state is
      the one reached when the call ends, normally or abruptly. *)

From Stdlib Require Import List String Ascii Bool Arith ZArith Lia.
From Stdlib Require Import DecimalString.
Import ListNotations.
Local Open Scope string_scope.
Local Open Scope list_scope.

(** ** JavaScript string primitives *)

Module JsString.

(** White space of [String.prototype.trim] and of [\s] among code units < 256. *)
Definition isWhiteSpace (c : ascii) : bool :=
  let n := nat_of_ascii c in
  (((9 <=? n) && (n <=? 13)) || (n =? 32) || (n =? 160))%nat.

Fixpoint trimStart (s : string) : string :=
  match s with
  | String c r => if isWhiteSpace c then trimStart r else s
  | EmptyString => EmptyString
  end.

Fixpoint trimEnd (s : string) : string :=
  match s with
  | String c r =>
      match trimEnd r with
      | EmptyString => if isWhiteSpace c then EmptyString else String c EmptyString
      | r' => String c r'
      end
  | EmptyString => EmptyString
  end.

Definition trim (s : string) : string := trimEnd (trimStart s).

Fixpoint startsWith (s p : string) {struct p} : bool :=
  match p, s with
  | EmptyString, _ => true
  | String b p', String a s' => Ascii.eqb a b && startsWith s' p'
  | String _ _, EmptyString => false
  end.

(** [s.substring(1)] *)
Definition substring1 (s : string) : string :=
  match s with String _ r => r | EmptyString => EmptyString end.

(** [s.split(sep)] for a one-character separator. *)
Fixpoint split (sep : ascii) (s : string) : list string :=
  match s with
  | EmptyString => [EmptyString]
  | String c r =>
      if Ascii.eqb c sep then EmptyString :: split sep r
      else match split sep r with
           | h :: t => String c h :: t
           | [] => [String c EmptyString]
           end
  end.

(** [a.join(sep)] *)
Definition join (sep : string) (l : list string) : string := String.concat sep l.

Definition nonEmpty (s : string) : bool :=
  match s with EmptyString => false | _ => true end.

Definition lowerChar (c : ascii) : ascii :=
  let n := nat_of_ascii c in
  if (((65 <=? n) && (n <=? 90))
      || ((192 <=? n) && (n <=? 222) && negb (n =? 215)))%nat
  then ascii_of_nat (n + 32) else c.

Fixpoint toLowerCase (s : string) : string :=
  match s with
  | String c r => String (lowerChar c) (toLowerCase r)
  | EmptyString => EmptyString
  end.

(** The double-quote character. *)
Definition dquote : ascii := ascii_of_nat 34.

(** [s.replace(/\x22/g, '')]: every double quote is removed. *)
Fixpoint stripQuotes (s : string) : string :=
  match s with
  | String c r => if Ascii.eqb c dquote then stripQuotes r else String c (stripQuotes r)
  | EmptyString => EmptyString
  end.

Fixpoint spaces (n : nat) : string :=
  match n with O => EmptyString | S k => String " " (spaces k) end.

(** [s.padEnd(n)] *)
Definition padEnd (n : nat) (s : string) : string :=
  s ++ spaces (n - String.length s).

Definition isDigit (c : ascii) : bool :=
  let n := nat_of_ascii c in ((48 <=? n) && (n <=? 57))%nat.

Definition digitValue (c : ascii) : Z := Z.of_nat (nat_of_ascii c) - 48.

(** The longest prefix of decimal digits, read as a number; [None] when the
    string does not start with a digit. *)
Fixpoint readDigits (acc : option Z) (s : string) : option Z :=
  match s with
  | String c r =>
      if isDigit c
      then readDigits (Some (10 * match acc with Some a => a | None => 0 end + digitValue c)%Z) r
      else acc
  | EmptyString => acc
  end.

(** [parseInt(s, 10)]: leading white space is skipped, one sign is accepted,
    the digits that follow are read and the rest is ignored; [None] is NaN. *)
Definition parseInt (s : string) : option Z :=
  match trimStart s with
  | String "-" r => option_map Z.opp (readDigits None r)
  | String "+" r => readDigits None r
  | r => readDigits None r
  end.

(** Decimal rendering of a number in a template literal. *)
Definition ofNat (n : nat) : string := NilEmpty.string_of_uint (Nat.to_uint n).

End JsString.

(** ** Objects used as dictionaries

    The own properties of a plain object, in the order in which [Object.keys],
    [Object.values] and [for-in] enumerate them: keys that are array indices
    first, in ascending order, then the other keys in the order they were
    created. *)

Module Dict.

Definition t (A : Type) : Type := list (string * A).

Section Ops.
Context {A : Type}.

(** [d[k]]; [None] is undefined. *)
Fixpoint get (k : string) (d : t A) : option A :=
  match d with
  | [] => None
  | (k', v) :: r => if String.eqb k' k then Some v else get k r
  end.

(** The names a plain object inherits from [Object.prototype].  What is
    behind them is a function, or the prototype itself: truthy, and none of
    the objects of this program. *)
Definition inherited (k : string) : bool :=
  existsb (String.eqb k)
    ["constructor"; "__defineGetter__"; "__defineSetter__"; "hasOwnProperty";
     "__lookupGetter__"; "__lookupSetter__"; "isPrototypeOf";
     "propertyIsEnumerable"; "toString"; "valueOf"; "__proto__";
     "toLocaleString"].

(** Whether [d[k]] is truthy, for a dictionary whose own values are objects. *)
Definition defined (k : string) (d : t A) : bool :=
  match get k d with
  | Some _ => true
  | None => inherited k
  end.

(** A canonical numeric string below 2^32 - 1. *)
Definition arrayIndex (k : string) : option Z :=
  match k with
  | EmptyString => None
  | String c r =>
      if forallb JsString.isDigit (list_ascii_of_string k)
         && (negb (Ascii.eqb c "0") || negb (JsString.nonEmpty r))
      then match JsString.readDigits None k with
           | Some v => if (v <? 4294967295)%Z then Some v else None
           | None => None
           end
      else None
  end.

(** Does a new key [k] (array index [i], if it is one) go before key [k']? *)
Definition goesBefore (i : option Z) (k' : string) : bool :=
  match i, arrayIndex k' with
  | Some n, Some n' => (n <? n')%Z
  | Some _, None => true
  | None, _ => false
  end.

Fixpoint place (k : string) (v : A) (d : t A) : t A :=
  match d with
  | [] => [(k, v)]
  | (k', v') :: r =>
      if goesBefore (arrayIndex k) k' then (k, v) :: d else (k', v') :: place k v r
  end.

Fixpoint replace (k : string) (v : A) (d : t A) : t A :=
  match d with
  | [] => []
  | (k', v') :: r => if String.eqb k' k then (k', v) :: r else (k', v') :: replace k v r
  end.

(** [d[k] = v] *)
Definition set (k : string) (v : A) (d : t A) : t A :=
  match get k d with
  | Some _ => replace k v d
  | None => place k v d
  end.

(** [delete d[k]] *)
Fixpoint remove (k : string) (d : t A) : t A :=
  match d with
  | [] => []
  | (k', v') :: r => if String.eqb k' k then r else (k', v') :: remove k r
  end.

Definition values (d : t A) : list A := map snd d.

End Ops.
End Dict.

(** ** Tree nodes: [VFile] and [VDirectory] *)

#[warnings="-register-all"]
Inductive Node : Type :=
| VFile (name content type : string)
| VDirectory (name : string) (children : Dict.t Node).

Definition node_name (n : Node) : string :=
  match n with VFile nm _ _ => nm | VDirectory nm _ => nm end.

(** [n instanceof VDirectory] *)
Definition isDirectory (n : Node) : bool :=
  match n with VDirectory _ _ => true | VFile _ _ _ => false end.

(** A reference to a node object: the keys from the root down to it. *)
Definition NodeRef : Type := list string.

Fixpoint ref_eqb (a b : NodeRef) : bool :=
  match a, b with
  | [], [] => true
  | x :: a', y :: b' => String.eqb x y && ref_eqb a' b'
  | _, _ => false
  end.

(** The object a reference denotes in the tree under [n]. *)
Fixpoint node_at (n : Node) (r : NodeRef) : option Node :=
  match r with
  | [] => Some n
  | k :: r' =>
      match n with
      | VDirectory _ ch =>
          match Dict.get k ch with
          | Some c => node_at c r'
          | None => None
          end
      | VFile _ _ _ => None
      end
  end.

(** [findParent(dir, target)] of [_getParent]: depth-first search for the
    directory one of whose children is the object [target]; [here] is the
    reference of [dir]. *)
Fixpoint findParent (dir : Node) (here target : NodeRef) : option NodeRef :=
  match dir with
  | VFile _ _ _ => None
  | VDirectory _ ch =>
      (fix scan (l : Dict.t Node) : option NodeRef :=
         match l with
         | [] => None
         | (k, child) :: rest =>
             if ref_eqb (here ++ [k]) target then Some here
             else match child with
                  | VDirectory _ _ =>
                      match findParent child (here ++ [k]) target with
                      | Some found => Some found
                      | None => scan rest
                      end
                  | VFile _ _ _ => scan rest
                  end
         end) ch
  end.

(** Replace the children of the directory at [r] by [f children]. *)
Fixpoint update_children (f : Dict.t Node -> Dict.t Node) (n : Node) (r : NodeRef) : Node :=
  match n with
  | VFile _ _ _ => n
  | VDirectory nm ch =>
      match r with
      | [] => VDirectory nm (f ch)
      | k :: r' =>
          VDirectory nm
            ((fix upd (l : Dict.t Node) : Dict.t Node :=
                match l with
                | [] => []
                | (k', c) :: rest =>
                    if String.eqb k' k then (k', update_children f c r') :: rest
                    else (k', c) :: upd rest
                end) ch)
      end
  end.

(** ** VirtualOS *)

Record VirtualOS : Type := mkVirtualOS {
  root : Node;
  cwd : NodeRef
}.

Module VFS.

(** [_getParent(node)] *)
Definition _getParent (os : VirtualOS) (node : NodeRef) : option NodeRef :=
  match node with
  | [] => None
  | _ => findParent (root os) [] node
  end.

(** [current instanceof VDirectory && current.getChild(part)], for a child of
    the directory.  For an inherited name the source goes on with the
    inherited member; that is no node, and the result here is [None]. *)
Definition getChild (os : VirtualOS) (current : NodeRef) (part : string) : option NodeRef :=
  match node_at (root os) current with
  | Some (VDirectory _ ch) =>
      match Dict.get part ch with
      | Some _ => Some (current ++ [part])
      | None => None
      end
  | _ => None
  end.

(** The loop of [_resolvePath] over the segments that are left. *)
Fixpoint walk (os : VirtualOS) (current : NodeRef) (parts : list string) : option NodeRef :=
  match parts with
  | [] => Some current
  | part :: rest =>
      if String.eqb part ".." then
        walk os (match _getParent os current with Some p => p | None => current end) rest
      else if negb (String.eqb part ".") then
        match getChild os current part with
        | Some c => walk os c rest
        | None => None
        end
      else walk os current rest
  end.

Definition segments (path : string) : list string :=
  filter JsString.nonEmpty (JsString.split "/" path).

(** [_resolvePath(path)]; [None] is null. *)
Definition _resolvePath (os : VirtualOS) (path : string) : option NodeRef :=
  if String.eqb path "/" then Some []
  else walk os (if JsString.startsWith path "/" then [] else cwd os) (segments path).

(** [current.name] for the object behind a reference.  An object that is no
    longer in the tree keeps the name it was stored under. *)
Definition nameOf (os : VirtualOS) (r : NodeRef) : string :=
  match node_at (root os) r with
  | Some n => node_name n
  | None => last r EmptyString
  end.

(** The loop of [_getFullPath]: [while (current && current !== this.root)].
    [fuel] bounds the number of iterations. *)
Fixpoint climb (fuel : nat) (os : VirtualOS) (current : option NodeRef) (path : string) : string :=
  match fuel, current with
  | S fuel', Some (k :: r) =>
      climb fuel' os (_getParent os (k :: r)) ("/" ++ nameOf os (k :: r) ++ path)
  | _, _ => path
  end.

(** [_getFullPath(directory)].  The loop runs once per ancestor, so the depth
    of the reference is fuel enough (lemma [climb_fuel] below). *)
Definition _getFullPath (os : VirtualOS) (directory : NodeRef) : string :=
  match directory with
  | [] => "/"
  | _ =>
      match climb (List.length directory) os (Some directory) EmptyString with
      | EmptyString => "/"
      | path => path
      end
  end.

(** [parts.pop()] and what is left of [parts], for [parts = path.split('/')]. *)
Definition popped (path : string) : string := last (JsString.split "/" path) EmptyString.
Definition remaining (path : string) : list string := removelast (JsString.split "/" path).

(** [parts.join('/') || '/'] *)
Definition dirPathOf (path : string) : string :=
  match JsString.join "/" (remaining path) with
  | EmptyString => "/"
  | p => p
  end.

(** The shared tail of [createFile] and [createDirectory]: insert [node] under
    [name] in the directory that [dirPath] resolves to, unless that name is
    taken there. *)
Definition createNode (os : VirtualOS) (dirPath name : string) (node : Node) : VirtualOS * bool :=
  match _resolvePath os dirPath with
  | Some d =>
      match node_at (root os) d with
      | Some (VDirectory _ ch) =>
          if Dict.defined name ch then (os, false)
          else (mkVirtualOS (update_children (Dict.set name node) (root os) d) (cwd os), true)
      | _ => (os, false)
      end
  | None => (os, false)
  end.

(** [createFile(path, content = '', type = 'text')] *)
Definition createFile (os : VirtualOS) (path content type : string) : VirtualOS * bool :=
  let filename := popped path in
  createNode os (dirPathOf path) filename (VFile filename content type).

(** [createDirectory(path)]: [dirname = parts.pop() || path]. *)
Definition createDirectory (os : VirtualOS) (path : string) : VirtualOS * bool :=
  let dirname := match popped path with EmptyString => path | n => n end in
  createNode os (dirPathOf path) dirname (VDirectory dirname []).

(** [deleteFile(path)] *)
Definition deleteFile (os : VirtualOS) (path : string) : VirtualOS * bool :=
  let filename := popped path in
  match _resolvePath os (dirPathOf path) with
  | Some d =>
      match node_at (root os) d with
      | Some (VDirectory _ ch) =>
          match Dict.get filename ch with
          | Some (VFile _ _ _) =>
              (mkVirtualOS (update_children (Dict.remove filename) (root os) d) (cwd os), true)
          | _ => (os, false)
          end
      | _ => (os, false)
      end
  | None => (os, false)
  end.

(** [listFiles(path = '.')] *)
Definition listFiles (os : VirtualOS) (path : string) : list string :=
  match _resolvePath os path with
  | Some d =>
      match node_at (root os) d with
      | Some (VDirectory _ ch) =>
          map (fun kv => if isDirectory (snd kv) then (fst kv ++ "/")%string else fst kv) ch
      | _ => []
      end
  | None => []
  end.

(** [changeDir(path)] *)
Definition changeDir (os : VirtualOS) (path : string) : VirtualOS * bool :=
  match _resolvePath os path with
  | Some d =>
      match node_at (root os) d with
      | Some (VDirectory _ _) => (mkVirtualOS (root os) d, true)
      | _ => (os, false)
      end
  | None => (os, false)
  end.

(** [_initializeFileSystem()] *)
Definition _initializeFileSystem (os : VirtualOS) : VirtualOS :=
  let os := fst (createDirectory os "/C") in
  let os := fst (createDirectory os "/C/Users") in
  let os := fst (createDirectory os "/C/Program Files") in
  let os := fst (createDirectory os "/D") in
  fst (createFile os "/readme.txt" "Welcome to the terminal!" "text").

(** [new VirtualOS()] *)
Definition new : VirtualOS :=
  _initializeFileSystem (mkVirtualOS (VDirectory "/" []) []).

End VFS.

(** ** Terminal: the output sink *)

(** What [print] and [printHtml] append to [containerDiv]. *)
Inductive Element : Type :=
| P (textContent : string)
| Div (innerHTML : string).

Record Terminal : Type := mkTerminal {
  containerDiv : list Element;
  history : list string
}.

Module Term.

Definition print (text : string) (t : Terminal) : Terminal :=
  mkTerminal (containerDiv t ++ [P text]) (history t ++ [text]).

Definition printHtml (html : string) (t : Terminal) : Terminal :=
  mkTerminal (containerDiv t ++ [Div html]) (history t ++ [html]).

Definition clear (t : Terminal) : Terminal := mkTerminal [] [].

(** [new Terminal(name, containerDiv)] on an empty container. *)
Definition new : Terminal := mkTerminal [] [].

End Term.

(** ** Completions *)

Inductive JsError : Type :=
| TypeError (message : string)
| Raised (what : string).

(** How a call ends, and the state it leaves behind. *)
Inductive completion (S : Type) : Type :=
| Normal (s : S)
| Abrupt (e : JsError) (s : S).
Arguments Normal {S} s.
Arguments Abrupt {S} e s.

Definition state_of {S : Type} (c : completion S) : S :=
  match c with Normal s => s | Abrupt _ s => s end.

Definition isNormal {S : Type} (c : completion S) : bool :=
  match c with Normal _ => true | Abrupt _ _ => false end.

(** ** Addons *)

(** A hook of an addon works on the terminal and the file system it was
    handed, and may throw. *)
Definition Hook : Type := Terminal -> VirtualOS -> completion (Terminal * VirtualOS).

Record Addon : Type := mkAddon {
  addon_name : string;
  onStart : Hook;
  onCommand : string -> Hook;
  onStop : Hook
}.

(** [new Addon(name)], the base class. *)
Definition baseAddon (name : string) : Addon :=
  mkAddon name
    (fun t os => Normal (t, os))
    (fun input t os => Normal (Term.print ("[" ++ name ++ "]> " ++ input) t, os))
    (fun t os => Normal (t, os)).

(** What [this.addons[name]] is for an inherited name: an object with none of
    the hooks, so that the call of any of them is a TypeError. *)
Definition inheritedMember : Addon :=
  mkAddon EmptyString
    (fun t os => Abrupt (TypeError "addon.onStart is not a function") (t, os))
    (fun _ t os => Abrupt (TypeError "this.activeAddon.onCommand is not a function") (t, os))
    (fun t os => Abrupt (TypeError "this.activeAddon.onStop is not a function") (t, os)).

(** [ownTerm] tells whether the object has a property [term] (bound to the
    terminal of the session): [stopAddon] reads [this.term], which the class
    itself never assigns. *)
Record AddonExecutor : Type := mkAddonExecutor {
  addons : Dict.t Addon;
  activeAddon : option Addon;
  ownTerm : bool
}.

(** ** TerminalLib: the objects of one session *)

Record TerminalLib : Type := mkTerminalLib {
  term : Terminal;
  vOS : VirtualOS;
  addonExecutor : AddonExecutor;
  commandHistory : list string
}.

Definition with_term (f : Terminal -> Terminal) (w : TerminalLib) : TerminalLib :=
  mkTerminalLib (f (term w)) (vOS w) (addonExecutor w) (commandHistory w).

Definition with_vOS (os : VirtualOS) (w : TerminalLib) : TerminalLib :=
  mkTerminalLib (term w) os (addonExecutor w) (commandHistory w).

Definition with_activeAddon (a : option Addon) (w : TerminalLib) : TerminalLib :=
  mkTerminalLib (term w) (vOS w)
    (mkAddonExecutor (addons (addonExecutor w)) a (ownTerm (addonExecutor w)))
    (commandHistory w).

Definition with_commandHistory (h : list string) (w : TerminalLib) : TerminalLib :=
  mkTerminalLib (term w) (vOS w) (addonExecutor w) h.

(** Run a hook on the terminal and the file system of the session. *)
Definition call (h : Hook) (w : TerminalLib) : completion TerminalLib :=
  match h (term w) (vOS w) with
  | Normal (t, os) => Normal (mkTerminalLib t os (addonExecutor w) (commandHistory w))
  | Abrupt e (t, os) => Abrupt e (mkTerminalLib t os (addonExecutor w) (commandHistory w))
  end.

Module Executor.

(** [new AddonExecutor()] *)
Definition new : AddonExecutor := mkAddonExecutor [] None false.

(** [registerAddon(addon)] *)
Definition registerAddon (addon : Addon) (ex : AddonExecutor) : AddonExecutor :=
  mkAddonExecutor
    (Dict.set (JsString.toLowerCase (addon_name addon)) addon (addons ex))
    (activeAddon ex) (ownTerm ex).

(** [startAddon(name, term, vOS)] *)
Definition startAddon (name : string) (w : TerminalLib) : completion TerminalLib :=
  match activeAddon (addonExecutor w) with
  | Some _ =>
      Normal (with_term (Term.print "An addon is already running. Please 'exit' first.") w)
  | None =>
      match Dict.get (JsString.toLowerCase name) (addons (addonExecutor w)) with
      | Some addon => call (onStart addon) (with_activeAddon (Some addon) w)
      | None =>
          if Dict.inherited (JsString.toLowerCase name)
          then call (onStart inheritedMember) (with_activeAddon (Some inheritedMember) w)
          else Normal (with_term (Term.print ("Addon not found: " ++ name)) w)
      end
  end.

(** [stopAddon()].  [this.term.print] is a call on [undefined] unless the
    executor has been given a [term]. *)
Definition stopAddon (w : TerminalLib) : completion TerminalLib :=
  match activeAddon (addonExecutor w) with
  | Some a =>
      match call (onStop a) w with
      | Normal w1 =>
          let w2 := with_activeAddon None w1 in
          if ownTerm (addonExecutor w2)
          then Normal (with_term (Term.print "Returned to main terminal.") w2)
          else Abrupt (TypeError "Cannot read properties of undefined (reading 'print')") w2
      | Abrupt e w1 => Abrupt e w1
      end
  | None => Normal w
  end.

(** [handleCommand(input)] *)
Definition handleCommand (input : string) (w : TerminalLib) : completion TerminalLib :=
  match activeAddon (addonExecutor w) with
  | Some a => call (onCommand a input) w
  | None => Normal w
  end.

End Executor.

(** ** Commands *)

(** What the page supplies during one dispatch: the string that
    [new Date().toLocaleString()] returns, and the collation that
    [localeCompare] applies (negative, zero or positive). *)
Record Host : Type := mkHost {
  toLocaleString : string;
  localeCompare : string -> string -> Z
}.

(** The [execute] closures of [_registerDefaultCommands]. *)
Inductive Handler : Type :=
| Pwd | Ls | Cd | Cat | Mkdir | Touch | Rm | Echo | History | Date | Tree
| Clear | Help | Run | Exit.

Record Command : Type := mkCommand {
  cmd_name : string;
  description : string;
  execute : Handler;
  aliases : list string
}.

Module Lib.

Import JsString.
Local Open Scope string_scope.

(** [addCommand(command)] *)
Definition addCommand (command : Command) (commands : Dict.t Command) : Dict.t Command :=
  fold_left (fun cs alias => Dict.set alias command cs) (aliases command)
    (Dict.set (cmd_name command) command commands).

(** [_registerDefaultCommands()] *)
Definition _registerDefaultCommands (commands : Dict.t Command) : Dict.t Command :=
  fold_left (fun cs c => addCommand c cs)
    [ mkCommand "pwd" "Print current working directory" Pwd [];
      mkCommand "ls" "List files in current directory" Ls [];
      mkCommand "cd" "Change directory" Cd [];
      mkCommand "cat" "Display file contents" Cat [];
      mkCommand "mkdir" "Create a directory" Mkdir [];
      mkCommand "touch" "Create an empty file" Touch [];
      mkCommand "rm" "Delete a file" Rm [];
      mkCommand "echo" "Print text" Echo [];
      mkCommand "history" "Show command history. Use !<number> to rerun." History [];
      mkCommand "date" "Displays the current date and time." Date ["time"];
      mkCommand "tree" "Display the directory structure as a tree." Tree [];
      mkCommand "clear" "Clear terminal output" Clear [];
      mkCommand "help" "List available commands" Help [];
      mkCommand "run" "Run a registered addon" Run [];
      mkCommand "exit" "Exits the current addon." Exit [] ]
    commands.

(** [this.commands] after the constructor. *)
Definition commands : Dict.t Command := _registerDefaultCommands [].

(** [new TerminalLib(terminalInstance, vOS, addonExecutor)] *)
Definition new (t : Terminal) (os : VirtualOS) (ex : AddonExecutor) : TerminalLib :=
  mkTerminalLib t os ex [].

Definition print (text : string) (w : TerminalLib) : TerminalLib :=
  with_term (Term.print text) w.

Definition printHtml (html : string) (w : TerminalLib) : TerminalLib :=
  with_term (Term.printHtml html) w.

(** [args[0]]; [None] is undefined. *)
Definition arg0 (args : list string) : option string := hd_error args.

(** [args[0] || d] *)
Definition arg0_or (d : string) (args : list string) : string :=
  match arg0 args with
  | Some (String c r) => String c r
  | _ => d
  end.

(** [`${args[0]}`] *)
Definition arg0_text (args : list string) : string :=
  match arg0 args with Some a => a | None => "undefined" end.

Definition q : string := String dquote EmptyString.
Definition newline : ascii := ascii_of_nat 10.

(** [_printTreeRecursive(directory, prefix)] *)
Fixpoint _printTreeRecursive (directory : Node) (prefix : string) (t : Terminal) : Terminal :=
  match directory with
  | VFile _ _ _ => t
  | VDirectory _ ch =>
      (fix each (l : Dict.t Node) (t : Terminal) : Terminal :=
         match l with
         | [] => t
         | (_, child) :: rest =>
             let isLast := match rest with [] => true | _ => false end in
             let decorator := if isLast then "└── " else "├── " in
             let newPrefix := prefix ++ (if isLast then "    " else "│   ") in
             match child with
             | VDirectory nm _ =>
                 each rest
                   (_printTreeRecursive child newPrefix
                      (Term.print (prefix ++ decorator ++ nm ++ "/") t))
             | VFile nm _ _ => each rest (Term.print (prefix ++ decorator ++ nm) t)
             end
         end) ch t
  end.

(** The body of [cat] once [file] is resolved. *)
Definition catNode (file : option NodeRef) (args : list string) (w : TerminalLib) : TerminalLib :=
  match match file with Some r => node_at (root (vOS w)) r | None => None end with
  | Some (VFile name content type) =>
      if String.eqb type "text" then
        fold_left (fun w line => print line w) (split newline content) w
      else if String.eqb type "image" then
        printHtml ("<img src=" ++ q ++ content ++ q ++ " alt=" ++ q ++ name ++ q
                   ++ " style=" ++ q ++ "max-width: 100%; height: auto;" ++ q ++ ">") w
      else if String.eqb type "audio" then
        printHtml ("<audio controls src=" ++ q ++ content ++ q
                   ++ ">Your browser does not support audio playback.</audio>") w
      else if String.eqb type "exe" then
        print ("[Executable] To run this, type: run " ++ content) w
      else print ("Unsupported file type: " ++ type) w
  | _ => print ("cat: No such file: " ++ arg0_text args) w
  end.

(** [[...new Set(Object.values(this.commands))]]: one entry per command
    object, at its first position. *)
Fixpoint distinct (seen : list string) (l : list Command) : list Command :=
  match l with
  | [] => []
  | c :: r =>
      if existsb (String.eqb (cmd_name c)) seen then distinct seen r
      else c :: distinct (cmd_name c :: seen) r
  end.

(** [sort((a, b) => a.name.localeCompare(b.name))]; the sort is stable. *)
Fixpoint insertSorted (host : Host) (c : Command) (l : list Command) : list Command :=
  match l with
  | [] => [c]
  | d :: r =>
      if (localeCompare host (cmd_name c) (cmd_name d) <? 0)%Z then c :: l
      else d :: insertSorted host c r
  end.

Definition sortByName (host : Host) (l : list Command) : list Command :=
  fold_left (fun acc c => insertSorted host c acc) l [].

Definition helpText (host : Host) : string :=
  join (String newline EmptyString)
    (map (fun c => padEnd 15 (cmd_name c) ++ "- " ++ description c)
       (sortByName host (distinct [] (Dict.values commands)))).

(** [command.execute(args)] for the built-in commands. *)
Definition executeHandler (host : Host) (h : Handler) (args : list string) (w : TerminalLib)
  : completion TerminalLib :=
  match h with
  | Pwd => Normal (print (VFS._getFullPath (vOS w) (cwd (vOS w))) w)
  | Ls =>
      match VFS.listFiles (vOS w) (arg0_or "." args) with
      | [] => Normal (print "Empty directory." w)
      | files => Normal (print (join (String newline EmptyString) files) w)
      end
  | Cd =>
      match arg0 args with
      | Some (String c r) =>
          let (os, ok) := VFS.changeDir (vOS w) (String c r) in
          if ok then Normal (with_vOS os w)
          else Normal (print ("cd: no such file or directory: " ++ String c r) (with_vOS os w))
      | _ => Normal (print "cd: no such file or directory: " w)
      end
  | Cat => Normal (catNode (VFS._resolvePath (vOS w) (arg0_or "" args)) args w)
  | Mkdir =>
      match arg0 args with
      | Some (String c r) =>
          let (os, ok) := VFS.createDirectory (vOS w) (String c r) in
          if ok then Normal (with_vOS os w)
          else Normal (print ("mkdir: cannot create directory: " ++ String c r) (with_vOS os w))
      | _ => Normal (print "mkdir: cannot create directory: " w)
      end
  | Touch =>
      match arg0 args with
      | Some (String c r) =>
          let (os, ok) := VFS.createFile (vOS w) (String c r) "" "text" in
          if ok then Normal (with_vOS os w)
          else Normal (print ("touch: cannot create file: " ++ String c r) (with_vOS os w))
      | _ => Normal (print "Usage: touch <filename>" w)
      end
  | Rm =>
      match arg0 args with
      | Some (String c r) =>
          let (os, ok) := VFS.deleteFile (vOS w) (String c r) in
          if ok then Normal (with_vOS os w)
          else Normal (print ("rm: cannot remove '" ++ String c r
                              ++ "': No such file or directory") (with_vOS os w))
      | _ => Normal (print "Usage: rm <filename>" w)
      end
  | Echo => Normal (print (join " " args) w)
  | History =>
      Normal (fst (fold_left
                     (fun (acc : TerminalLib * nat) cmd =>
                        (print (ofNat (snd acc + 1) ++ ": " ++ cmd) (fst acc), S (snd acc)))
                     (commandHistory w) (w, 0)))
  | Date => Normal (print (toLocaleString host) w)
  | Tree =>
      let path := arg0_or "." args in
      match VFS._resolvePath (vOS w) path with
      | Some startNode =>
          match node_at (root (vOS w)) startNode with
          | Some (VDirectory nm ch) =>
              Normal (with_term (_printTreeRecursive (VDirectory nm ch) EmptyString)
                        (print (VFS._getFullPath (vOS w) startNode) w))
          | _ => Normal (print ("tree: '" ++ path ++ "' is not a directory.") w)
          end
      | None => Normal (print ("tree: '" ++ path ++ "' is not a directory.") w)
      end
  | Clear => Normal (with_term Term.clear w)
  | Help => Normal (print (helpText host) w)
  | Run =>
      match arg0 args with
      | Some (String c r) => Executor.startAddon (String c r) w
      | _ => Normal (print "Usage: run <addon-name>" w)
      end
  | Exit =>
      match activeAddon (addonExecutor w) with
      | None => Normal (print "No active addon to exit." w)
      | Some _ => Executor.stopAddon w
      end
  end.

(** *** The tokenizer: [input.match(/(?:[^\s\x22]+|\x22[^\x22]*\x22)+/g) || []] *)

Fixpoint drop (n : nat) (s : string) : string :=
  match n, s with
  | S k, String _ r => drop k r
  | _, _ => s
  end.

(** Length of the longest run of characters that are neither white space nor
    a double quote. *)
Fixpoint wordLen (s : string) : nat :=
  match s with
  | String c r => if isWhiteSpace c || Ascii.eqb c dquote then 0 else S (wordLen r)
  | EmptyString => 0
  end.

(** After an opening quote: the number of characters up to the closing quote,
    that quote included. *)
Fixpoint quotedLen (s : string) : option nat :=
  match s with
  | String c r => if Ascii.eqb c dquote then Some 1 else option_map S (quotedLen r)
  | EmptyString => None
  end.

(** One round of the group; 0 when neither alternative matches. *)
Definition pieceLen (s : string) : nat :=
  match s with
  | String c r =>
      if Ascii.eqb c dquote
      then match quotedLen r with Some n => S n | None => 0 end
      else wordLen s
  | EmptyString => 0
  end.

(** The greedy repetition of the group at the start of [s]. *)
Fixpoint tokenLen (fuel : nat) (s : string) : nat :=
  match fuel with
  | O => 0
  | S fuel' =>
      match pieceLen s with
      | O => 0
      | n => n + tokenLen fuel' (drop n s)
      end
  end.

(** All matches, left to right; where none starts, the scan moves on by one
    character. *)
Fixpoint scanTokens (fuel : nat) (s : string) : list string :=
  match fuel, s with
  | S fuel', String _ r =>
      match tokenLen (String.length s) s with
      | O => scanTokens fuel' r
      | n => String.substring 0 n s :: scanTokens fuel' (drop n s)
      end
  | _, _ => []
  end.

Definition tokenize (input : string) : list string :=
  scanTokens (String.length input) input.

(** *** [runCommand] *)

(** [this.commandHistory[idx]] for a number [idx]; [None] is undefined. *)
Definition historyAt (h : list string) (idx : option Z) : option string :=
  match idx with
  | Some i => if (0 <=? i)%Z then nth_error h (Z.to_nat i) else None
  | None => None
  end.

(** [this.commandHistory[this.commandHistory.length - 1] !== input] *)
Definition lastDiffers (h : list string) (input : string) : bool :=
  match h with
  | [] => true
  | _ => negb (String.eqb (last h EmptyString) input)
  end.

(** The part of [runCommand] that follows the history-recall branch. *)
Definition dispatch (host : Host) (input : string) (w : TerminalLib) : completion TerminalLib :=
  let w :=
    if lastDiffers (commandHistory w) input
    then with_commandHistory (commandHistory w ++ [input])%list w
    else w in
  match activeAddon (addonExecutor w) with
  | Some _ =>
      if String.eqb (toLowerCase input) "exit" then Executor.stopAddon w
      else Executor.handleCommand input w
  | None =>
      match tokenize input with
      | [] => Normal w
      | first :: parts =>
          match toLowerCase (stripQuotes first) with
          | EmptyString => Normal w
          | cmdName =>
              let args := map stripQuotes parts in
              match Dict.get cmdName commands with
              | Some command => executeHandler host (execute command) args w
              | None =>
                  if Dict.inherited cmdName
                  then Abrupt (TypeError "command.execute is not a function") w
                  else Normal (print ("Command not recognized: " ++ cmdName ++ ".") w)
              end
          end
      end
  end.

(** [runCommand(input)].  The call recurses on a recalled line; [fuel] bounds
    the depth of the recursion and [None] means it was used up. *)
Fixpoint runCommand (fuel : nat) (host : Host) (input : string) (w : TerminalLib)
  : option (completion TerminalLib) :=
  match fuel with
  | O => None
  | S fuel' =>
      let input := trim input in
      match input with
      | EmptyString => Some (Normal w)
      | _ =>
          if startsWith input "!" then
            let idx := option_map (fun n => (n - 1)%Z) (parseInt (substring1 input)) in
            match historyAt (commandHistory w) idx with
            | Some (String c r) =>
                runCommand fuel' host (String c r) (print ("> " ++ String c r) w)
            | _ => Some (Normal (print "Invalid history index." w))
            end
          else Some (dispatch host input w)
      end
  end.

End Lib.

(** * Invariants and reference forms *)

(** ** Induction on nodes *)

Section NodeInduction.
Variable Q : Node -> Prop.
Hypothesis Q_file : forall name content type, Q (VFile name content type).
Hypothesis Q_dir :
  forall name ch, Forall (fun kv => Q (snd kv)) ch -> Q (VDirectory name ch).

Fixpoint Node_nested_ind (n : Node) : Q n :=
  match n with
  | VFile name content type => Q_file name content type
  | VDirectory name ch =>
      Q_dir name ch
        ((fix all (l : Dict.t Node) : Forall (fun kv => Q (snd kv)) l :=
            match l with
            | [] => Forall_nil _
            | kv :: r => Forall_cons kv (Node_nested_ind (snd kv)) (all r)
            end) ch)
  end.
End NodeInduction.

(** The scan over the children of a directory, as [findParent] unfolds it. *)
Fixpoint scanChildren (l : Dict.t Node) (here target : NodeRef) : option NodeRef :=
  match l with
  | [] => None
  | (k, child) :: rest =>
      if ref_eqb (here ++ [k]) target then Some here
      else match child with
           | VDirectory _ _ =>
               match findParent child (here ++ [k]) target with
               | Some found => Some found
               | None => scanChildren rest here target
               end
           | VFile _ _ _ => scanChildren rest here target
           end
  end.

(** The update of one child, as [update_children] unfolds it. *)
Fixpoint updateChild (k : string) (g : Node -> Node) (l : Dict.t Node) : Dict.t Node :=
  match l with
  | [] => []
  | (k', c) :: rest =>
      if String.eqb k' k then (k', g c) :: rest else (k', c) :: updateChild k g rest
  end.

(** *** Invariants of the tree *)

(** Every child carries the key it is stored under as its name. *)
Fixpoint names_ok (n : Node) : bool :=
  match n with
  | VFile _ _ _ => true
  | VDirectory _ ch =>
      (fix all (l : Dict.t Node) : bool :=
         match l with
         | [] => true
         | (k, c) :: r => String.eqb (node_name c) k && names_ok c && all r
         end) ch
  end.

Fixpoint children_ok (l : Dict.t Node) : bool :=
  match l with
  | [] => true
  | (k, c) :: r => String.eqb (node_name c) k && names_ok c && children_ok r
  end.

(** [r] denotes a directory of the tree under [n]. *)
Definition directory_at (n : Node) (r : NodeRef) : bool :=
  match node_at n r with
  | Some (VDirectory _ _) => true
  | _ => false
  end.

(** The state of a [VirtualOS] between two calls: the root is a directory,
    names and keys agree, and [cwd] is a directory of the tree. *)
Definition wellFormed (os : VirtualOS) : bool :=
  isDirectory (root os) && names_ok (root os) && directory_at (root os) (cwd os).

(** The states a [VirtualOS] goes through. *)
Inductive vfs_reachable : VirtualOS -> Prop :=
| vfs_new : vfs_reachable VFS.new
| vfs_createFile os path content type :
    vfs_reachable os -> vfs_reachable (fst (VFS.createFile os path content type))
| vfs_createDirectory os path :
    vfs_reachable os -> vfs_reachable (fst (VFS.createDirectory os path))
| vfs_deleteFile os path :
    vfs_reachable os -> vfs_reachable (fst (VFS.deleteFile os path))
| vfs_changeDir os path :
    vfs_reachable os -> vfs_reachable (fst (VFS.changeDir os path)).

(** *** The normalized absolute form of a path

    Following the specification: the root renders as a slash, any other node
    as its segment names from the root, each preceded by a slash.  A relative
    path is taken from the position of [cwd]. *)
Fixpoint slashed (segs : list string) : string :=
  match segs with
  | [] => EmptyString
  | k :: r => "/" ++ k ++ slashed r
  end.

Definition absolutePath (segs : list string) : string :=
  "/" ++ JsString.join "/" segs.

Definition normalized (os : VirtualOS) (path : string) : string :=
  absolutePath ((if JsString.startsWith path "/" then [] else cwd os) ++ VFS.segments path)%list.

(** Whether a character occurs in a string. *)
Fixpoint occurs (c : ascii) (s : string) : bool :=
  match s with
  | EmptyString => false
  | String a r => Ascii.eqb a c || occurs c r
  end.

(** A name that a path can address: not empty, without a slash, and neither
    [.] nor [..]. *)
Definition plainName (k : string) : bool :=
  JsString.nonEmpty k && negb (occurs "/" k)
  && negb (String.eqb k ".") && negb (String.eqb k "..").

(** No directory holds two children under the same key. *)
Fixpoint unique_ok (n : Node) : bool :=
  match n with
  | VFile _ _ _ => true
  | VDirectory _ ch =>
      (fix all (l : Dict.t Node) : bool :=
         match l with
         | [] => true
         | (k, c) :: r =>
             match Dict.get k r with None => true | Some _ => false end
             && unique_ok c && all r
         end) ch
  end.

Fixpoint children_unique (l : Dict.t Node) : bool :=
  match l with
  | [] => true
  | (k, c) :: r =>
      match Dict.get k r with None => true | Some _ => false end
      && unique_ok c && children_unique r
  end.

(** The number of nodes below a node. *)
Fixpoint descendants (n : Node) : nat :=
  match n with
  | VFile _ _ _ => 0
  | VDirectory _ ch =>
      (fix sum (l : Dict.t Node) : nat :=
         match l with
         | [] => 0
         | (_, c) :: r => S (descendants c) + sum r
         end) ch
  end.

Fixpoint descendants_of (l : Dict.t Node) : nat :=
  match l with
  | [] => 0
  | (_, c) :: r => S (descendants c) + descendants_of r
  end.

(** The loop over the children, as [_printTreeRecursive] unfolds it. *)
Fixpoint printChildren (l : Dict.t Node) (prefix : string) (t : Terminal) : Terminal :=
  match l with
  | [] => t
  | (_, child) :: rest =>
      let isLast := match rest with [] => true | _ => false end in
      let decorator := if isLast then "└── " else "├── " in
      let newPrefix := (prefix ++ (if isLast then "    " else "│   "))%string in
      match child with
      | VDirectory nm _ =>
          printChildren rest prefix
            (Lib._printTreeRecursive child newPrefix
               (Term.print (prefix ++ decorator ++ nm ++ "/")%string t))
      | VFile nm _ _ =>
          printChildren rest prefix (Term.print (prefix ++ decorator ++ nm)%string t)
      end
  end.

(** No two neighbours in the list are equal. *)
Fixpoint noRepeat (l : list string) : bool :=
  match l with
  | a :: (b :: _) as r => negb (String.eqb a b) && noRepeat r
  | _ => true
  end.


(** *** Invariant of the command history *)

(** An entry is what [runCommand] stores: trimmed, not empty and not a
    recall. *)
Definition storable (e : string) : bool :=
  String.eqb (JsString.trim e) e && JsString.nonEmpty e && negb (JsString.startsWith e "!").

(** Whether the executor of the session has a [term] property. *)
Definition executorTerm (w : TerminalLib) : bool := ownTerm (addonExecutor w).

(** The session after the lines of [inputs] have been dispatched in turn,
    with [fuel] for each. *)
Fixpoint session (fuel : nat) (host : Host) (inputs : list string) (w : TerminalLib) : TerminalLib :=
  match inputs with
  | [] => w
  | input :: rest =>
      match Lib.runCommand fuel host input w with
      | Some c => session fuel host rest (state_of c)
      | None => w
      end
  end.

(** The sessions that a [TerminalLib] goes through: it starts with an empty
    command history, lines are dispatched, and whatever else happens to the
    terminal, the file system or the addon registry leaves the command history
    alone. *)
Inductive reachable : TerminalLib -> Prop :=
| reach_new t os ex : reachable (Lib.new t os ex)
| reach_runCommand fuel host input w c :
    reachable w -> Lib.runCommand fuel host input w = Some c -> reachable (state_of c)
| reach_other w t os ex :
    reachable w -> reachable (mkTerminalLib t os ex (commandHistory w)).

(** * Properties *)

(** ** References *)

Lemma ref_eqb_eq (a b : NodeRef) : ref_eqb a b = true <-> a = b.
Proof.
  revert b; induction a as [|x a IH]; intros [|y b]; simpl; split;
    try congruence; try reflexivity.
  - rewrite andb_true_iff, String.eqb_eq, IH. intros [-> ->]; reflexivity.
  - intros [= -> ->]. rewrite String.eqb_refl. simpl. apply IH. reflexivity.
Qed.

Lemma ref_eqb_neq (a b : NodeRef) : ref_eqb a b = false <-> a <> b.
Proof.
  destruct (ref_eqb a b) eqn:E.
  - apply ref_eqb_eq in E. split; congruence.
  - split; [|reflexivity]. intros _ H. apply ref_eqb_eq in H. congruence.
Qed.

Lemma removelast_snoc {A} (l : list A) (x : A) : removelast (l ++ [x]) = l.
Proof. rewrite removelast_app by discriminate. simpl. apply app_nil_r. Qed.

Lemma node_at_file_inv name content type r n :
  node_at (VFile name content type) r = Some n -> r = [].
Proof. destruct r; simpl; [reflexivity | discriminate]. Qed.

Lemma node_at_app n r1 r2 :
  node_at n (r1 ++ r2) =
  match node_at n r1 with Some m => node_at m r2 | None => None end.
Proof.
  revert n; induction r1 as [|k r1 IH]; intros n; simpl; [reflexivity|].
  destruct n as [|nm ch]; [reflexivity|].
  destruct (Dict.get k ch); [apply IH | reflexivity].
Qed.

(** ** [_getParent]: the search finds the directory that holds the target *)

Lemma findParent_dir name ch here target :
  findParent (VDirectory name ch) here target = scanChildren ch here target.
Proof.
  simpl. induction ch as [|[k c] rest IH]; simpl; [reflexivity|].
  destruct (ref_eqb (here ++ [k]) target); [reflexivity|].
  destruct c; [exact IH|].
  destruct (findParent _ _ _); [reflexivity | exact IH].
Qed.

(** Whatever the search returns is the target without its last key. *)
Lemma findParent_sound dir :
  forall here target found,
    findParent dir here target = Some found ->
    target <> [] /\ found = removelast target.
Proof.
  induction dir as [nm c ty | nm ch IH] using Node_nested_ind; intros here target found.
  - discriminate.
  - rewrite findParent_dir.
    induction ch as [|[k c] rest IHrest]; cbn [scanChildren]; [discriminate|].
    inversion IH as [|? ? Hc Hrest]; subst. cbn [snd] in Hc.
    destruct (ref_eqb (here ++ [k]) target) eqn:E.
    + apply ref_eqb_eq in E. subst target. intros [= <-].
      split; [destruct here; discriminate | now rewrite removelast_snoc].
    + destruct c as [|nm' ch'].
      * apply IHrest; assumption.
      * destruct (findParent (VDirectory nm' ch') (here ++ [k]) target) eqn:F.
        -- intros [= <-]. eapply Hc; exact F.
        -- apply IHrest; assumption.
Qed.

(** A target that is in the tree below [dir] is found. *)
Lemma findParent_complete dir :
  forall here rel n,
    rel <> [] ->
    node_at dir rel = Some n ->
    findParent dir here (here ++ rel) = Some (removelast (here ++ rel)).
Proof.
  induction dir as [nm c ty | nm ch IH] using Node_nested_ind; intros here rel n Hrel Hat.
  - apply node_at_file_inv in Hat. contradiction.
  - rewrite findParent_dir.
    destruct rel as [|k0 rel']; [contradiction|]. clear Hrel.
    cbn [node_at] in Hat.
    destruct (Dict.get k0 ch) as [c0|] eqn:G; [|discriminate].
    induction ch as [|[k c] rest IHrest]; cbn [scanChildren Dict.get] in *; [discriminate|].
    inversion IH as [|? ? Hc Hrest]; subst. cbn [snd] in Hc.
    destruct (ref_eqb (here ++ [k]) (here ++ k0 :: rel')) eqn:E.
    + apply ref_eqb_eq in E. rewrite <- E. now rewrite removelast_snoc.
    + destruct (String.eqb k k0) eqn:K.
      * apply String.eqb_eq in K. subst k0. injection G as ->.
        assert (Hne : rel' <> []).
        { intros ->. apply ref_eqb_neq in E. apply E. reflexivity. }
        destruct c0 as [|nm' ch'].
        -- apply node_at_file_inv in Hat. contradiction.
        -- specialize (Hc (here ++ [k]) rel' n Hne Hat).
           rewrite <- app_assoc in Hc. cbn [app] in Hc. rewrite Hc. reflexivity.
      * destruct c as [|nm' ch'].
        -- apply IHrest; assumption.
        -- destruct (findParent (VDirectory nm' ch') (here ++ [k]) (here ++ k0 :: rel')) eqn:F.
           ++ apply findParent_sound in F. destruct F as [_ ->]. reflexivity.
           ++ apply IHrest; assumption.
Qed.

(** [_getParent] of a node of the tree other than the root. *)
Lemma getParent_live os r k n :
  node_at (root os) (r ++ [k]) = Some n ->
  VFS._getParent os (r ++ [k]) = Some r.
Proof.
  intros H.
  assert (Hne : r ++ [k] <> []) by (destruct r; discriminate).
  pose proof (findParent_complete (root os) [] (r ++ [k]) n Hne H) as F.
  cbn [app] in F. rewrite removelast_snoc in F.
  unfold VFS._getParent. destruct (r ++ [k]); [contradiction | exact F].
Qed.

(** The root has no parent, and the parent of any other object is shorter by
    one key. *)
Lemma getParent_root os : VFS._getParent os [] = None.
Proof. reflexivity. Qed.

Lemma getParent_some os r p :
  VFS._getParent os r = Some p -> r <> [] /\ p = removelast r.
Proof.
  unfold VFS._getParent. destruct r as [|k r']; [discriminate|].
  apply findParent_sound.
Qed.

(** ** Names and keys *)

Lemma names_ok_dir nm ch : names_ok (VDirectory nm ch) = children_ok ch.
Proof.
  simpl. induction ch as [|[k c] r IH]; simpl; [reflexivity|]. now rewrite IH.
Qed.

Lemma children_ok_get ch k c :
  children_ok ch = true -> Dict.get k ch = Some c ->
  node_name c = k /\ names_ok c = true.
Proof.
  induction ch as [|[k' c'] r IH]; simpl; [discriminate|].
  rewrite !andb_true_iff. intros [[Hn Hc] Hr].
  destruct (String.eqb k' k) eqn:K.
  - apply String.eqb_eq in K. subst k'. intros [= <-].
    split; [now apply String.eqb_eq | assumption].
  - now apply IH.
Qed.

Lemma names_ok_at r : forall n m,
  names_ok n = true -> node_at n r = Some m -> names_ok m = true.
Proof.
  induction r as [|k r IH]; intros n m Hn; simpl.
  - now intros [= <-].
  - destruct n as [|nm ch]; [discriminate|].
    destruct (Dict.get k ch) as [c|] eqn:G; [|discriminate].
    rewrite names_ok_dir in Hn.
    destruct (children_ok_get _ _ _ Hn G) as [_ Hc]. now apply IH.
Qed.

Lemma node_at_prefix n r1 r2 m :
  node_at n (r1 ++ r2) = Some m -> exists d, node_at n r1 = Some d /\ node_at d r2 = Some m.
Proof.
  rewrite node_at_app. destruct (node_at n r1) as [d|]; [|discriminate].
  intros H. now exists d.
Qed.

Lemma name_at_snoc n r k m :
  names_ok n = true -> node_at n (r ++ [k]) = Some m -> node_name m = k.
Proof.
  intros Hn H. apply node_at_prefix in H. destruct H as (d & Hd & Hk).
  pose proof (names_ok_at _ _ _ Hn Hd) as Hok.
  simpl in Hk. destruct d as [|nm ch]; [discriminate|].
  destruct (Dict.get k ch) as [c|] eqn:G; [|discriminate].
  injection Hk as <-. rewrite names_ok_dir in Hok.
  now destruct (children_ok_get _ _ _ Hok G).
Qed.

(** ** [_getFullPath] *)

Lemma append_assoc (a b c : string) : ((a ++ b) ++ c = a ++ (b ++ c))%string.
Proof. induction a as [|x a IH]; simpl; [reflexivity | now rewrite IH]. Qed.

Lemma append_nil_r (a : string) : (a ++ "")%string = a.
Proof. induction a as [|x a IH]; simpl; [reflexivity | now rewrite IH]. Qed.

Lemma slashed_snoc r k : slashed (r ++ [k]) = (slashed r ++ "/" ++ k)%string.
Proof.
  induction r as [|x r IH]; simpl.
  - now rewrite append_nil_r.
  - rewrite IH. f_equal. now rewrite append_assoc.
Qed.

Lemma absolutePath_slashed k r : absolutePath (k :: r) = slashed (k :: r).
Proof.
  unfold absolutePath, JsString.join. revert k.
  induction r as [|x r IH]; intros k; simpl.
  - now rewrite append_nil_r.
  - f_equal. f_equal. specialize (IH x). simpl in IH. injection IH as IH.
    rewrite <- IH. reflexivity.
Qed.

Lemma climb_step fuel os (r : NodeRef) acc :
  r <> [] ->
  VFS.climb (S fuel) os (Some r) acc
  = VFS.climb fuel os (VFS._getParent os r) ("/" ++ VFS.nameOf os r ++ acc)%string.
Proof. destruct r; [contradiction | reflexivity]. Qed.

(** The loop climbs from a node of the tree to the root and writes the keys
    on the way; any fuel from the depth of the node on gives the same path. *)
Lemma climb_live os r : forall fuel acc,
  names_ok (root os) = true ->
  node_at (root os) r <> None ->
  List.length r <= fuel ->
  VFS.climb fuel os (Some r) acc = (slashed r ++ acc)%string.
Proof.
  induction r as [|k r IH] using rev_ind; intros fuel acc Hn Hlive Hfuel.
  - destruct fuel; reflexivity.
  - rewrite length_app in Hfuel. simpl in Hfuel.
    destruct fuel as [|fuel]; [lia|].
    destruct (node_at (root os) (r ++ [k])) as [m|] eqn:Hat; [|contradiction].
    rewrite climb_step by (destruct r; discriminate).
    rewrite (getParent_live _ _ _ _ Hat).
    unfold VFS.nameOf. rewrite Hat, (name_at_snoc _ _ _ _ Hn Hat).
    destruct (node_at_prefix _ _ _ _ Hat) as (d & Hd & _).
    rewrite IH; [| assumption | congruence | lia].
    now rewrite slashed_snoc, append_assoc.
Qed.

Lemma length_removelast_cons {A} (k : A) r :
  List.length (removelast (k :: r)) = List.length r.
Proof.
  revert k; induction r as [|x r IH]; intros k; [reflexivity|].
  change (removelast (k :: x :: r)) with (k :: removelast (x :: r)).
  cbn [List.length]. f_equal. apply IH.
Qed.

(** The depth of a reference is fuel enough for the loop, on any tree. *)
Lemma climb_fuel os : forall n r fuel acc,
  List.length r <= n -> n <= fuel ->
  VFS.climb fuel os (Some r) acc = VFS.climb (List.length r) os (Some r) acc.
Proof.
  induction n as [|n IH]; intros r fuel acc Hr Hf.
  - destruct r; [|simpl in Hr; lia]. destruct fuel; reflexivity.
  - destruct r as [|k r']; [destruct fuel; reflexivity|].
    destruct fuel as [|fuel]; [lia|].
    change (List.length (k :: r')) with (S (List.length r')).
    rewrite !climb_step by discriminate.
    destruct (VFS._getParent os (k :: r')) as [p|] eqn:E.
    + apply getParent_some in E. destruct E as [_ ->].
      pose proof (length_removelast_cons k r') as Hlen.
      simpl in Hr.
      rewrite (IH _ fuel) by lia.
      rewrite Hlen. reflexivity.
    + destruct fuel, (List.length r'); reflexivity.
Qed.

Lemma getFullPath_live os r :
  names_ok (root os) = true ->
  node_at (root os) r <> None ->
  VFS._getFullPath os r = absolutePath r.
Proof.
  intros Hn Hl. destruct r as [|k r]; [reflexivity|].
  unfold VFS._getFullPath.
  rewrite climb_live by (assumption || lia).
  rewrite append_nil_r, absolutePath_slashed. reflexivity.
Qed.

(** ** Walks over real segment names *)

Lemma getChild_some os cur part c :
  VFS.getChild os cur part = Some c ->
  c = (cur ++ [part])%list /\ node_at (root os) c <> None.
Proof.
  unfold VFS.getChild.
  destruct (node_at (root os) cur) as [[|nm ch]|] eqn:Hat; try discriminate.
  destruct (Dict.get part ch) as [m|] eqn:G; [|discriminate].
  intros [= <-]. split; [reflexivity|].
  rewrite node_at_app, Hat. simpl. rewrite G. discriminate.
Qed.

Lemma walk_real os segs : forall start n,
  node_at (root os) start <> None ->
  ~ In "." segs -> ~ In ".." segs ->
  VFS.walk os start segs = Some n ->
  n = (start ++ segs)%list /\ node_at (root os) n <> None.
Proof.
  induction segs as [|part rest IH]; intros start n Hlive Hdot Hdd; simpl.
  - intros [= <-]. now rewrite app_nil_r.
  - destruct (String.eqb_spec part "..") as [->|_].
    { exfalso. apply Hdd. now left. }
    destruct (String.eqb_spec part ".") as [->|_].
    { exfalso. apply Hdot. now left. }
    simpl. destruct (VFS.getChild os start part) as [c|] eqn:G; [|discriminate].
    apply getChild_some in G. destruct G as [-> Hc]. intros W.
    apply IH in W; [| assumption | intros ?; apply Hdot; now right
                                 | intros ?; apply Hdd; now right].
    destruct W as [-> Hn]. split; [now rewrite <- app_assoc | assumption].
Qed.

(** ** Path resolution *)

Lemma segments_slash : VFS.segments "/" = [].
Proof. reflexivity. Qed.

Lemma wellFormed_cwd os :
  wellFormed os = true -> node_at (root os) (cwd os) <> None.
Proof.
  unfold wellFormed, directory_at. rewrite !andb_true_iff. intros [_ H].
  destruct (node_at (root os) (cwd os)); [discriminate | discriminate].
Qed.

Lemma wellFormed_names os : wellFormed os = true -> names_ok (root os) = true.
Proof. unfold wellFormed. rewrite !andb_true_iff. tauto. Qed.

(** C7.  For a path made of real segment names only that resolves to a node,
    [_getFullPath] of that node, which climbs the parent links up to the root,
    is the normalized absolute form of the path. *)
Theorem C7_fullPath_of_resolved_path os path n :
  wellFormed os = true ->
  ~ In "." (VFS.segments path) ->
  ~ In ".." (VFS.segments path) ->
  VFS._resolvePath os path = Some n ->
  VFS._getFullPath os n = normalized os path.
Proof.
  intros Hwf Hdot Hdd. unfold VFS._resolvePath, normalized.
  destruct (String.eqb_spec path "/") as [->|_].
  - intros [= <-]. reflexivity.
  - intros W. apply walk_real in W; try assumption.
    + destruct W as [-> Hlive].
      apply getFullPath_live; [now apply wellFormed_names | assumption].
    + destruct (JsString.startsWith path "/"); [discriminate|].
      now apply wellFormed_cwd.
Qed.

Lemma C7_witness :
  VFS._getFullPath (fst (VFS.changeDir VFS.new "C")) ["C"; "Program Files"]
  = normalized (fst (VFS.changeDir VFS.new "C")) "Program Files/".
Proof.
  apply C7_fullPath_of_resolved_path.
  - reflexivity.
  - simpl. intros [H|[]]. discriminate H.
  - simpl. intros [H|[]]. discriminate H.
  - reflexivity.
Defined.

(** C8.  A [..] segment met while the walk stands on the root leaves it on the
    root, and [_resolvePath("..")] with [cwd] at the root is the root. *)
Theorem C8_parent_of_root_is_root (tree : Node) (c : NodeRef) (rest : list string) :
  VFS.walk (mkVirtualOS tree c) [] (".." :: rest) = VFS.walk (mkVirtualOS tree c) [] rest
  /\ VFS._resolvePath (mkVirtualOS tree []) ".." = Some [].
Proof. split; reflexivity. Qed.

(** C10.  A path that does not start with a slash and has no non-empty
    segment, the empty string in particular, resolves to [cwd]; [cat] without
    an argument resolves the empty path and so works on [cwd]. *)
Theorem C10_empty_path_is_cwd (os : VirtualOS) (path : string) :
  JsString.startsWith path "/" = false ->
  VFS.segments path = [] ->
  VFS._resolvePath os path = Some (cwd os)
  /\ VFS._resolvePath os "" = Some (cwd os)
  /\ forall host t ex h,
       Lib.executeHandler host Cat [] (mkTerminalLib t os ex h)
       = Normal (Lib.catNode (Some (cwd os)) [] (mkTerminalLib t os ex h)).
Proof.
  intros Hs Hseg. split; [|split].
  - unfold VFS._resolvePath. rewrite Hs, Hseg.
    destruct (String.eqb_spec path "/") as [->|_]; [discriminate Hs | reflexivity].
  - reflexivity.
  - intros. reflexivity.
Qed.

Lemma C10_witness :
  VFS._resolvePath (fst (VFS.changeDir VFS.new "/C/Users")) "" = Some ["C"; "Users"].
Proof.
  apply (C10_empty_path_is_cwd (fst (VFS.changeDir VFS.new "/C/Users")) "");
    reflexivity.
Defined.

(** With [cwd] a directory, [cat] without an argument reports that there is no
    such file. *)
Lemma cat_without_argument host w :
  directory_at (root (vOS w)) (cwd (vOS w)) = true ->
  Lib.executeHandler host Cat [] w = Normal (Lib.print "cat: No such file: undefined" w).
Proof.
  unfold directory_at. simpl. unfold Lib.catNode. cbn [VFS._resolvePath].
  change (VFS._resolvePath (vOS w) (Lib.arg0_or "" [])) with (Some (cwd (vOS w))).
  destruct (node_at (root (vOS w)) (cwd (vOS w))) as [[|nm ch]|]; try discriminate.
  reflexivity.
Qed.

(** The only path without a leading slash and without a non-empty segment is
    the empty string. *)
Lemma split_segments_nil s :
  filter JsString.nonEmpty (JsString.split "/" s) = [] ->
  JsString.startsWith s "/" = false -> s = EmptyString.
Proof.
  destruct s as [|c r]; [reflexivity|].
  simpl. destruct (Ascii.eqb_spec c "/") as [->|Hc].
  - intros _ H. simpl in H. discriminate H.
  - destruct (JsString.split "/" r); simpl; discriminate.
Qed.

Lemma walk_app os pre : forall start rest,
  VFS.walk os start (pre ++ rest) =
  match VFS.walk os start pre with
  | Some cur => VFS.walk os cur rest
  | None => None
  end.
Proof.
  induction pre as [|p pre IH]; intros start rest; simpl; [reflexivity|].
  destruct (String.eqb p ".."); [apply IH|].
  destruct (negb (String.eqb p ".")); [|apply IH].
  destruct (VFS.getChild os start p); [apply IH | reflexivity].
Qed.

(** [.] leaves the walk where it stands, whatever it stands on; [..] moves it
    to the parent, or leaves it in place when there is none. *)
Lemma walk_dot os cur rest : VFS.walk os cur ("." :: rest) = VFS.walk os cur rest.
Proof. reflexivity. Qed.

Lemma walk_dotdot os cur rest :
  VFS.walk os cur (".." :: rest)
  = VFS.walk os (match VFS._getParent os cur with Some p => p | None => cur end) rest.
Proof. reflexivity. Qed.

(** C5, as the code has it.  Resolution returns null as soon as a segment
    other than [.] and [..] is met where the walk does not stand on a directory
    that answers to that name, with a child or with a member it inherits from
    [Object.prototype], whatever segments follow. *)
Theorem C5_resolve_fails_at_missing_segment os path pre part rest cur :
  VFS.segments path = (pre ++ part :: rest)%list ->
  VFS.walk os (if JsString.startsWith path "/" then [] else cwd os) pre = Some cur ->
  part <> "." -> part <> ".." ->
  (forall nm ch,
     node_at (root os) cur = Some (VDirectory nm ch) -> Dict.defined part ch = false) ->
  VFS._resolvePath os path = None.
Proof.
  intros Hseg Hpre Hdot Hdd Hdef.
  assert (Hmiss : forall nm ch,
             node_at (root os) cur = Some (VDirectory nm ch) -> Dict.get part ch = None).
  { intros nm ch Hat. specialize (Hdef nm ch Hat). unfold Dict.defined in Hdef.
    destruct (Dict.get part ch); [discriminate | reflexivity]. }
  unfold VFS._resolvePath.
  destruct (String.eqb_spec path "/") as [->|_].
  - rewrite segments_slash in Hseg. destruct pre; discriminate.
  - rewrite Hseg, walk_app, Hpre. simpl.
    destruct (String.eqb_spec part "..") as [?|_]; [contradiction|].
    destruct (String.eqb_spec part ".") as [?|_]; [contradiction|]. simpl.
    unfold VFS.getChild.
    destruct (node_at (root os) cur) as [[|nm ch]|] eqn:Hat; try reflexivity.
    now rewrite (Hmiss nm ch eq_refl).
Qed.

Lemma C5_witness : VFS._resolvePath VFS.new "/readme.txt/notes/.." = None.
Proof.
  apply (C5_resolve_fails_at_missing_segment VFS.new "/readme.txt/notes/.."
           ["readme.txt"] "notes" [".."] ["readme.txt"]).
  - reflexivity.
  - reflexivity.
  - discriminate.
  - discriminate.
  - intros nm ch H. vm_compute in H. discriminate H.
Defined.

(** C5, as stated, fails: in the initial layout the walk of [/readme.txt/.]
    stands on the file [readme.txt] with the segment [.] still to process, and
    resolution returns that file. *)
Lemma C5_counterexample :
  ~ (forall os path pre part rest cur name content type,
       VFS.segments path = (pre ++ part :: rest)%list ->
       VFS.walk os (if JsString.startsWith path "/" then [] else cwd os) pre = Some cur ->
       node_at (root os) cur = Some (VFile name content type) ->
       VFS._resolvePath os path = None).
Proof.
  intros H.
  specialize (H VFS.new "/readme.txt/." ["readme.txt"] "." [] ["readme.txt"]
                "readme.txt" "Welcome to the terminal!" "text"
                eq_refl eq_refl eq_refl).
  vm_compute in H. discriminate H.
Qed.

(** ** Creation *)

(** C4, as the code has it.  When the last segment of the path names a child
    of the directory the rest resolves to, [createFile] returns false and
    leaves the file system as it is, and so does [createDirectory] when that
    segment is not empty. *)
Theorem C4_collision_leaves_tree os path content type d nm ch c :
  VFS._resolvePath os (VFS.dirPathOf path) = Some d ->
  node_at (root os) d = Some (VDirectory nm ch) ->
  Dict.get (VFS.popped path) ch = Some c ->
  VFS.createFile os path content type = (os, false)
  /\ (VFS.popped path <> EmptyString -> VFS.createDirectory os path = (os, false)).
Proof.
  intros Hres Hat Hget. split.
  - unfold VFS.createFile, VFS.createNode, Dict.defined. now rewrite Hres, Hat, Hget.
  - intros Hne. unfold VFS.createDirectory, VFS.createNode, Dict.defined.
    destruct (VFS.popped path) as [|a s] eqn:E; [contradiction|].
    now rewrite Hres, Hat, Hget.
Qed.

Lemma C4_witness :
  VFS.createFile VFS.new "/C/Users" "x" "text" = (VFS.new, false)
  /\ VFS.createDirectory VFS.new "/C/Users" = (VFS.new, false).
Proof.
  destruct (C4_collision_leaves_tree VFS.new "/C/Users" "x" "text" ["C"] "C"
              [("Users", VDirectory "Users" []);
               ("Program Files", VDirectory "Program Files" [])]
              (VDirectory "Users" []) eq_refl eq_refl eq_refl) as [Hf Hd].
  split; [exact Hf | apply Hd; discriminate].
Defined.

(** C4, as stated, fails for [createDirectory]: once [/C] holds a child under
    the empty name, the last segment of [/C/] names that child, and
    [createDirectory("/C/")] still succeeds, adding a directory named [/C/]. *)
Lemma C4_counterexample :
  ~ (forall os path d nm ch c,
       VFS._resolvePath os (VFS.dirPathOf path) = Some d ->
       node_at (root os) d = Some (VDirectory nm ch) ->
       Dict.get (VFS.popped path) ch = Some c ->
       VFS.createDirectory os path = (os, false)).
Proof.
  intros H.
  specialize (H (fst (VFS.createFile VFS.new "/C/" "" "text")) "/C/" ["C"] "C"
                [("Users", VDirectory "Users" []);
                 ("Program Files", VDirectory "Program Files" []);
                 ("", VFile "" "" "text")]
                (VFile "" "" "text") eq_refl eq_refl eq_refl).
  vm_compute in H. discriminate H.
Qed.

(** C6 at the failing input.  On a fresh file system [createFile("/")]
    succeeds and stores a file whose name is the empty string under the root,
    and so does the line [touch C/] under [/C]. *)
Theorem C6_createFile_inserts_empty_name :
  VFS.createFile VFS.new "/" "" "text"
  = (mkVirtualOS
       (VDirectory "/"
          [("C", VDirectory "C" [("Users", VDirectory "Users" []);
                                 ("Program Files", VDirectory "Program Files" [])]);
           ("D", VDirectory "D" []);
           ("readme.txt", VFile "readme.txt" "Welcome to the terminal!" "text");
           ("", VFile "" "" "text")])
       [], true)
  /\ forall host,
       option_map (fun c => node_at (root (vOS (state_of c))) ["C"; ""])
         (Lib.runCommand 1 host "touch C/" (Lib.new Term.new VFS.new Executor.new))
       = Some (Some (VFile "" "" "text")).
Proof. split; [reflexivity | intros host; reflexivity]. Qed.

(** ** The invariant of the file system holds in every state it reaches *)

Lemma update_children_dir f nm ch k r :
  update_children f (VDirectory nm ch) (k :: r)
  = VDirectory nm (updateChild k (fun c => update_children f c r) ch).
Proof.
  simpl. f_equal. induction ch as [|[k' c] rest IH]; simpl; [reflexivity|].
  destruct (String.eqb k' k); [reflexivity | now rewrite IH].
Qed.

Lemma update_children_name f r : forall n,
  node_name (update_children f n r) = node_name n.
Proof. destruct r; intros [|nm ch]; reflexivity. Qed.

Lemma update_children_isDirectory f r : forall n,
  isDirectory (update_children f n r) = isDirectory n.
Proof. destruct r; intros [|nm ch]; reflexivity. Qed.

Lemma get_updateChild k0 g ch k :
  Dict.get k (updateChild k0 g ch)
  = if String.eqb k0 k then option_map g (Dict.get k ch) else Dict.get k ch.
Proof.
  induction ch as [|[k' c] rest IH]; simpl.
  - now destruct (String.eqb k0 k).
  - destruct (String.eqb_spec k' k0) as [->|Hk]; simpl.
    + destruct (String.eqb k0 k); reflexivity.
    + destruct (String.eqb_spec k' k) as [->|Hk'].
      * destruct (String.eqb_spec k0 k) as [->|_]; [contradiction | reflexivity].
      * exact IH.
Qed.

Lemma names_ok_update f :
  (forall ch, children_ok ch = true -> children_ok (f ch) = true) ->
  forall r n, names_ok n = true -> names_ok (update_children f n r) = true.
Proof.
  intros Hf. induction r as [|k r IH]; intros [|nm ch] Hn; try exact Hn.
  - simpl update_children. rewrite names_ok_dir in *. now apply Hf.
  - rewrite update_children_dir, names_ok_dir. rewrite names_ok_dir in Hn.
    induction ch as [|[k' c] rest IHch]; simpl in *; [reflexivity|].
    rewrite !andb_true_iff in Hn. destruct Hn as [[Hname Hc] Hrest].
    destruct (String.eqb k' k); simpl.
    + rewrite update_children_name, Hname, (IH _ Hc), Hrest. reflexivity.
    + rewrite Hname, Hc. simpl. now apply IHch.
Qed.

Lemma directory_at_update f : forall r n d,
  (forall nm ch, node_at n d = Some (VDirectory nm ch) ->
     forall k nm' ch', Dict.get k ch = Some (VDirectory nm' ch') ->
                       Dict.get k (f ch) = Some (VDirectory nm' ch')) ->
  directory_at n r = true ->
  directory_at (update_children f n d) r = true.
Proof.
  unfold directory_at.
  induction r as [|k r IH]; intros [|nm ch] d Hf H; try (simpl in H; discriminate H).
  - destruct d; reflexivity.
  - simpl in H. destruct (Dict.get k ch) as [c|] eqn:G; [|discriminate H].
    assert (Hc : exists nm' ch', c = VDirectory nm' ch').
    { destruct c as [|nm' ch']; [|now eauto].
      destruct r; simpl in H; discriminate H. }
    destruct Hc as (nm' & ch' & ->).
    destruct d as [|k0 d].
    + cbn [update_children node_at]. rewrite (Hf nm ch eq_refl k nm' ch' G). exact H.
    + rewrite update_children_dir. cbn [node_at]. rewrite get_updateChild, G.
      destruct (String.eqb_spec k0 k) as [->|_]; [|exact H].
      cbn [option_map]. apply IH; [|exact H].
      intros nm0 ch0 Hat. apply (Hf nm0 ch0). cbn [node_at]. now rewrite G.
Qed.

Lemma get_place {A} k (v : A) ch k' :
  k' <> k -> Dict.get k' (Dict.place k v ch) = Dict.get k' ch.
Proof.
  intros Hk. induction ch as [|[k0 c] rest IH]; simpl.
  - destruct (String.eqb_spec k k'); [congruence | reflexivity].
  - destruct (Dict.goesBefore (Dict.arrayIndex k) k0); simpl.
    + destruct (String.eqb_spec k k'); [congruence | reflexivity].
    + now rewrite IH.
Qed.

Lemma get_remove {A} k (ch : Dict.t A) k' :
  k' <> k -> Dict.get k' (Dict.remove k ch) = Dict.get k' ch.
Proof.
  intros Hk. induction ch as [|[k0 c] rest IH]; simpl; [reflexivity|].
  destruct (String.eqb_spec k0 k) as [->|_]; simpl.
  - destruct (String.eqb_spec k k'); [congruence | reflexivity].
  - now rewrite IH.
Qed.

Lemma children_ok_place k v ch :
  node_name v = k -> names_ok v = true ->
  children_ok ch = true -> children_ok (Dict.place k v ch) = true.
Proof.
  intros Hn Hv. induction ch as [|[k0 c] rest IH]; simpl.
  - intros _. now rewrite Hn, String.eqb_refl, Hv.
  - intros H. destruct (Dict.goesBefore (Dict.arrayIndex k) k0); simpl.
    + now rewrite Hn, String.eqb_refl, Hv, H.
    + rewrite !andb_true_iff in *. destruct H as [[? ?] ?]. auto.
Qed.

Lemma children_ok_remove k ch :
  children_ok ch = true -> children_ok (Dict.remove k ch) = true.
Proof.
  induction ch as [|[k0 c] rest IH]; simpl; [reflexivity|].
  rewrite !andb_true_iff. intros [[? ?] ?].
  destruct (String.eqb k0 k); simpl; [assumption|].
  rewrite !andb_true_iff. auto.
Qed.

Lemma createNode_wellFormed os dirPath name node :
  node_name node = name -> names_ok node = true ->
  wellFormed os = true ->
  wellFormed (fst (VFS.createNode os dirPath name node)) = true.
Proof.
  intros Hname Hnode Hwf. unfold VFS.createNode.
  destruct (VFS._resolvePath os dirPath) as [d|]; [|exact Hwf].
  destruct (node_at (root os) d) as [[|nm ch]|] eqn:Hat; try exact Hwf.
  unfold Dict.defined.
  destruct (Dict.get name ch) eqn:G; [exact Hwf|].
  destruct (Dict.inherited name); [exact Hwf|].
  unfold wellFormed in *. simpl. rewrite !andb_true_iff in *.
  destruct Hwf as [[Hd Hn] Hc]. repeat split.
  - now rewrite update_children_isDirectory.
  - apply names_ok_update; [|exact Hn].
    intros ch0 H0. unfold Dict.set.
    destruct (Dict.get name ch0) eqn:G0.
    + clear - H0 Hname Hnode. induction ch0 as [|[k0 c] rest IH]; simpl in *; [reflexivity|].
      rewrite !andb_true_iff in H0. destruct H0 as [[? ?] ?].
      destruct (String.eqb_spec k0 name) as [->|_]; simpl.
      * rewrite Hname, String.eqb_refl, Hnode. simpl. assumption.
      * rewrite !andb_true_iff. auto.
    + now apply children_ok_place.
  - apply directory_at_update; [|exact Hc].
    intros nm0 ch0 Hat0 k nm' ch' Hk. rewrite Hat in Hat0. injection Hat0 as _ <-.
    unfold Dict.set. rewrite G. rewrite get_place; [exact Hk|].
    intros ->. congruence.
Qed.

Lemma deleteFile_wellFormed os path :
  wellFormed os = true -> wellFormed (fst (VFS.deleteFile os path)) = true.
Proof.
  intros Hwf. unfold VFS.deleteFile.
  destruct (VFS._resolvePath os (VFS.dirPathOf path)) as [d|]; [|exact Hwf].
  destruct (node_at (root os) d) as [[|nm ch]|] eqn:Hat; try exact Hwf.
  destruct (Dict.get (VFS.popped path) ch) as [[nm0 ct ty|]|] eqn:G; try exact Hwf.
  unfold wellFormed in *. simpl. rewrite !andb_true_iff in *.
  destruct Hwf as [[Hd Hn] Hc]. repeat split.
  - now rewrite update_children_isDirectory.
  - apply names_ok_update; [|exact Hn]. intros ch0. apply children_ok_remove.
  - apply directory_at_update; [|exact Hc].
    intros nm1 ch1 Hat1 k nm' ch' Hk. rewrite Hat in Hat1. injection Hat1 as _ <-.
    rewrite get_remove; [exact Hk|]. intros ->. congruence.
Qed.

Lemma changeDir_wellFormed os path :
  wellFormed os = true -> wellFormed (fst (VFS.changeDir os path)) = true.
Proof.
  intros Hwf. unfold VFS.changeDir.
  destruct (VFS._resolvePath os path) as [d|]; [|exact Hwf].
  destruct (node_at (root os) d) as [[|nm ch]|] eqn:Hat; try exact Hwf.
  unfold wellFormed, directory_at in *. simpl. rewrite Hat.
  rewrite !andb_true_iff in *. tauto.
Qed.

(** Names agree with keys and [cwd] is a directory of the tree in every state
    that the operations of [VirtualOS] lead to. *)
Lemma reachable_wellFormed os : vfs_reachable os -> wellFormed os = true.
Proof.
  induction 1 as [|os path content type _ IH|os path _ IH|os path _ IH|os path _ IH].
  - reflexivity.
  - apply createNode_wellFormed; [reflexivity | reflexivity | exact IH].
  - apply createNode_wellFormed; [reflexivity | reflexivity | exact IH].
  - now apply deleteFile_wellFormed.
  - now apply changeDir_wellFormed.
Qed.

(** ** What the hooks and the built-in commands leave alone *)

Section Frame.

(** An observation of the session that looks at nothing but the addon
    registry, the [term] property of the executor and the command history. *)
Variable X : Type.
Variable observe : TerminalLib -> X.
Hypothesis observe_frame :
  forall t os reg a ot h t' os' a',
    observe (mkTerminalLib t os (mkAddonExecutor reg a ot) h)
    = observe (mkTerminalLib t' os' (mkAddonExecutor reg a' ot) h).

Ltac framed w :=
  destruct w as [?t ?os [?reg ?a ?ot] ?h]; simpl; try apply observe_frame.

Lemma with_term_frame f w : observe (with_term f w) = observe w.
Proof. framed w. Qed.

Lemma with_vOS_frame os w : observe (with_vOS os w) = observe w.
Proof. framed w. Qed.

Lemma with_activeAddon_frame a w : observe (with_activeAddon a w) = observe w.
Proof. framed w. Qed.

Lemma call_frame h w : observe (state_of (call h w)) = observe w.
Proof.
  unfold call. destruct (h (term w) (vOS w)) as [[t os]|e [t os]]; framed w.
Qed.

Lemma fold_print_frame (lines : list string) : forall w,
  observe (fold_left (fun w line => Lib.print line w) lines w) = observe w.
Proof.
  induction lines as [|l r IH]; intros w; simpl; [reflexivity|].
  rewrite IH. apply with_term_frame.
Qed.

Lemma catNode_frame file args w : observe (Lib.catNode file args w) = observe w.
Proof.
  unfold Lib.catNode.
  destruct (match file with Some r => node_at (root (vOS w)) r | None => None end)
    as [[nm ct ty|]|]; try apply with_term_frame.
  destruct (String.eqb ty "text"); [apply fold_print_frame|].
  destruct (String.eqb ty "image"); [apply with_term_frame|].
  destruct (String.eqb ty "audio"); [apply with_term_frame|].
  destruct (String.eqb ty "exe"); apply with_term_frame.
Qed.

Lemma history_listing_frame (l : list string) : forall w n,
  observe
    (fst (fold_left
            (fun (acc : TerminalLib * nat) cmd =>
               (Lib.print (JsString.ofNat (snd acc + 1) ++ ": " ++ cmd) (fst acc),
                S (snd acc)))
            l (w, n)))
  = observe w.
Proof.
  induction l as [|x r IH]; intros w n; simpl; [reflexivity|].
  rewrite IH. apply with_term_frame.
Qed.

Lemma startAddon_frame name w :
  observe (state_of (Executor.startAddon name w)) = observe w.
Proof.
  unfold Executor.startAddon.
  destruct (activeAddon (addonExecutor w)); [apply with_term_frame|].
  destruct (Dict.get _ _);
    [| destruct (Dict.inherited _); [|apply with_term_frame]];
    rewrite call_frame; apply with_activeAddon_frame.
Qed.

Lemma stopAddon_frame w :
  observe (state_of (Executor.stopAddon w)) = observe w.
Proof.
  unfold Executor.stopAddon.
  destruct (activeAddon (addonExecutor w)) as [a|]; [|reflexivity].
  pose proof (call_frame (onStop a) w) as E.
  destruct (call (onStop a) w) as [w'|e w']; simpl in *; [|exact E].
  destruct (ownTerm (addonExecutor w')); simpl;
    [rewrite with_term_frame|]; rewrite with_activeAddon_frame; exact E.
Qed.

Lemma handleCommand_frame input w :
  observe (state_of (Executor.handleCommand input w)) = observe w.
Proof.
  unfold Executor.handleCommand.
  destruct (activeAddon (addonExecutor w)); [apply call_frame | reflexivity].
Qed.

Ltac printed :=
  cbn [state_of];
  repeat first [rewrite with_term_frame | rewrite with_vOS_frame]; reflexivity.

(** No built-in command changes the observation. *)
Lemma executeHandler_frame host h args w :
  observe (state_of (Lib.executeHandler host h args w)) = observe w.
Proof.
  destruct h; cbn [Lib.executeHandler]; unfold Lib.print, Lib.printHtml.
  - printed.
  - destruct (VFS.listFiles _ _); printed.
  - destruct (Lib.arg0 args) as [[|c r]|]; try printed.
    destruct (VFS.changeDir _ _) as [os []]; printed.
  - apply catNode_frame.
  - destruct (Lib.arg0 args) as [[|c r]|]; try printed.
    destruct (VFS.createDirectory _ _) as [os []]; printed.
  - destruct (Lib.arg0 args) as [[|c r]|]; try printed.
    destruct (VFS.createFile _ _ _ _) as [os []]; printed.
  - destruct (Lib.arg0 args) as [[|c r]|]; try printed.
    destruct (VFS.deleteFile _ _) as [os []]; printed.
  - printed.
  - apply history_listing_frame.
  - printed.
  - destruct (VFS._resolvePath _ _) as [d|]; [|printed].
    destruct (node_at _ d) as [[|nm ch]|]; printed.
  - printed.
  - printed.
  - destruct (Lib.arg0 args) as [[|c r]|]; try printed.
    apply startAddon_frame.
  - destruct (activeAddon (addonExecutor w)) eqn:E; [|printed].
    apply stopAddon_frame.
Qed.

End Frame.

(** ** The addon session manager *)

Lemma call_executor h w :
  addonExecutor (state_of (call h w)) = addonExecutor w.
Proof. unfold call. destruct (h (term w) (vOS w)) as [[t os]|e [t os]]; reflexivity. Qed.

(** While an addon is active, [stopAddon] on an executor without a [term]
    property runs the stop hook, clears [activeAddon] and then throws: nothing
    is printed. *)
Lemma stopAddon_without_term w a w1 :
  activeAddon (addonExecutor w) = Some a ->
  ownTerm (addonExecutor w) = false ->
  call (onStop a) w = Normal w1 ->
  Executor.stopAddon w
  = Abrupt (TypeError "Cannot read properties of undefined (reading 'print')")
      (with_activeAddon None w1).
Proof.
  intros Ha Ht Hc. unfold Executor.stopAddon. rewrite Ha, Hc.
  pose proof (call_executor (onStop a) w) as E. rewrite Hc in E. simpl in E.
  simpl. rewrite E, Ht. reflexivity.
Qed.

(** When the stop hook returns, [stopAddon] leaves the manager Idle, with or
    without the error that follows. *)
Lemma stopAddon_idle w a :
  activeAddon (addonExecutor w) = Some a ->
  isNormal (call (onStop a) w) = true ->
  activeAddon (addonExecutor (state_of (Executor.stopAddon w))) = None.
Proof.
  intros Ha Hn. unfold Executor.stopAddon. rewrite Ha.
  destruct (call (onStop a) w) as [w1|e w1]; [|discriminate Hn].
  destruct (ownTerm _); reflexivity.
Qed.

(** C1 at the failing input.  With the addon [Game] started on a fresh
    session, [stopAddon()] clears [activeAddon] and ends in a TypeError
    without printing; the line [exit] lets that error out of [runCommand]. *)
Theorem C1_stopAddon_throws :
  let w := state_of (Executor.startAddon "game"
                       (Lib.new Term.new VFS.new
                          (Executor.registerAddon (baseAddon "Game") Executor.new))) in
  activeAddon (addonExecutor w) = Some (baseAddon "Game")
  /\ Executor.stopAddon w
     = Abrupt (TypeError "Cannot read properties of undefined (reading 'print')")
         (with_activeAddon None w)
  /\ history (term (state_of (Executor.stopAddon w))) = []
  /\ forall host,
       option_map isNormal (Lib.runCommand 2 host "exit" w) = Some false.
Proof. repeat split. Qed.

(** C3.  From Idle, with [a] registered: [startAddon(a)] makes [a] the
    active addon; any [startAddon(b)] that follows only prints the rejection,
    so [a] stays active and no hook of [b] runs; and once [stopAddon()] has
    left the manager Idle, [startAddon(b)] for a registered [b] runs the start
    hook of [b] with [b] as the active addon. *)
Theorem C3_one_addon_at_a_time w a addonA :
  activeAddon (addonExecutor w) = None ->
  Dict.get (JsString.toLowerCase a) (addons (addonExecutor w)) = Some addonA ->
  let w1 := state_of (Executor.startAddon a w) in
  let w2 := state_of (Executor.stopAddon w1) in
  activeAddon (addonExecutor w1) = Some addonA
  /\ (forall b,
        Executor.startAddon b w1
        = Normal (with_term (Term.print "An addon is already running. Please 'exit' first.") w1)
        /\ activeAddon (addonExecutor (state_of (Executor.startAddon b w1))) = Some addonA)
  /\ (forall b addonB,
        Dict.get (JsString.toLowerCase b) (addons (addonExecutor w)) = Some addonB ->
        activeAddon (addonExecutor w2) = None ->
        Executor.startAddon b w2 = call (onStart addonB) (with_activeAddon (Some addonB) w2)
        /\ activeAddon (addonExecutor (state_of (Executor.startAddon b w2))) = Some addonB).
Proof.
  intros Hidle Ha w1 w2.
  assert (H1 : addonExecutor w1
               = mkAddonExecutor (addons (addonExecutor w)) (Some addonA)
                   (ownTerm (addonExecutor w))).
  { unfold w1, Executor.startAddon. rewrite Hidle, Ha. now rewrite call_executor. }
  assert (Hact : activeAddon (addonExecutor w1) = Some addonA) by now rewrite H1.
  split; [exact Hact|]. split.
  - intros b.
    assert (Hrej : Executor.startAddon b w1
                   = Normal (with_term (Term.print
                               "An addon is already running. Please 'exit' first.") w1)).
    { unfold Executor.startAddon. now rewrite Hact. }
    split; [exact Hrej|]. rewrite Hrej. exact Hact.
  - intros b addonB Hb Hidle2.
    assert (H2 : addons (addonExecutor w2) = addons (addonExecutor w)).
    { unfold w2, Executor.stopAddon. rewrite Hact.
      pose proof (call_executor (onStop addonA) w1) as E.
      destruct (call (onStop addonA) w1) as [w'|e w']; simpl in E |- *.
      - destruct (ownTerm (addonExecutor w')); simpl; now rewrite E, H1.
      - now rewrite E, H1. }
    assert (Hstart : Executor.startAddon b w2
                     = call (onStart addonB) (with_activeAddon (Some addonB) w2)).
    { unfold Executor.startAddon. now rewrite Hidle2, H2, Hb. }
    split; [exact Hstart|]. rewrite Hstart. now rewrite call_executor.
Qed.

Lemma C3_witness :
  let w := Lib.new Term.new VFS.new
             (Executor.registerAddon (baseAddon "Snake")
                (Executor.registerAddon (baseAddon "Chess") Executor.new)) in
  let w1 := state_of (Executor.startAddon "chess" w) in
  let w2 := state_of (Executor.stopAddon w1) in
  activeAddon (addonExecutor w1) = Some (baseAddon "Chess")
  /\ activeAddon (addonExecutor (state_of (Executor.startAddon "SNAKE" w1)))
     = Some (baseAddon "Chess")
  /\ activeAddon (addonExecutor (state_of (Executor.startAddon "SNAKE" w2)))
     = Some (baseAddon "Snake").
Proof.
  destruct (C3_one_addon_at_a_time
              (Lib.new Term.new VFS.new
                 (Executor.registerAddon (baseAddon "Snake")
                    (Executor.registerAddon (baseAddon "Chess") Executor.new)))
              "chess" (baseAddon "Chess") eq_refl eq_refl) as (H1 & H2 & H3).
  split; [exact H1|]. split.
  - exact (proj2 (H2 "SNAKE")).
  - exact (proj2 (H3 "SNAKE" (baseAddon "Snake") eq_refl eq_refl)).
Defined.

(** ** The command history *)

Lemma trimEnd_idem s : JsString.trimEnd (JsString.trimEnd s) = JsString.trimEnd s.
Proof.
  induction s as [|c r IH]; [reflexivity|].
  simpl. destruct (JsString.trimEnd r) as [|c' r'] eqn:E.
  - destruct (JsString.isWhiteSpace c) eqn:W; [reflexivity|].
    simpl. now rewrite W.
  - change (JsString.trimEnd (String c (String c' r')))
      with (match JsString.trimEnd (String c' r') with
            | EmptyString =>
                if JsString.isWhiteSpace c then EmptyString else String c EmptyString
            | r0 => String c r0
            end).
    now rewrite IH.
Qed.

Lemma trimStart_head s :
  JsString.trimStart s = EmptyString
  \/ exists c r, JsString.trimStart s = String c r /\ JsString.isWhiteSpace c = false.
Proof.
  induction s as [|c r IH]; [now left|].
  simpl. destruct (JsString.isWhiteSpace c) eqn:W; [exact IH|].
  right. now exists c, r.
Qed.

Lemma trimEnd_head c r :
  JsString.isWhiteSpace c = false ->
  exists r', JsString.trimEnd (String c r) = String c r'.
Proof.
  intros W. simpl. destruct (JsString.trimEnd r).
  - rewrite W. now eexists.
  - now eexists.
Qed.

Lemma trim_idem s : JsString.trim (JsString.trim s) = JsString.trim s.
Proof.
  unfold JsString.trim.
  destruct (trimStart_head s) as [E | (c & r & E & W)]; rewrite E.
  - reflexivity.
  - destruct (trimEnd_head c r W) as [r' E'].
    assert (S : JsString.trimStart (JsString.trimEnd (String c r))
                = JsString.trimEnd (String c r)).
    { rewrite E'. simpl. now rewrite W. }
    rewrite S. apply trimEnd_idem.
Qed.

Lemma storable_inv e :
  storable e = true ->
  JsString.trim e = e /\ e <> EmptyString /\ JsString.startsWith e "!" = false.
Proof.
  unfold storable. rewrite !andb_true_iff, String.eqb_eq, negb_true_iff.
  intros [[? ?] ?]. repeat split; try assumption.
  intros ->. discriminate.
Qed.

(** What gets past the recall branch of [runCommand] is storable. *)
Lemma trimmed_storable input :
  JsString.trim input <> EmptyString ->
  JsString.startsWith (JsString.trim input) "!" = false ->
  storable (JsString.trim input) = true.
Proof.
  intros Hne Hs. unfold storable.
  rewrite trim_idem, String.eqb_refl, Hs.
  destruct (JsString.trim input); [contradiction | reflexivity].
Qed.

(** No built-in command and no action of the executor writes to the command
    history, and none binds the [term] property of the executor. *)
Lemma executeHandler_commandHistory host h args w :
  commandHistory (state_of (Lib.executeHandler host h args w)) = commandHistory w.
Proof. apply (executeHandler_frame _ commandHistory). reflexivity. Qed.

Lemma stopAddon_commandHistory w :
  commandHistory (state_of (Executor.stopAddon w)) = commandHistory w.
Proof. apply (stopAddon_frame _ commandHistory). reflexivity. Qed.

Lemma handleCommand_commandHistory input w :
  commandHistory (state_of (Executor.handleCommand input w)) = commandHistory w.
Proof. apply (handleCommand_frame _ commandHistory). reflexivity. Qed.

(** A dispatched line is appended to the history unless it repeats the last
    entry; nothing else changes the history. *)
Lemma dispatch_commandHistory host input w :
  commandHistory (state_of (Lib.dispatch host input w))
  = if Lib.lastDiffers (commandHistory w) input
    then (commandHistory w ++ [input])%list
    else commandHistory w.
Proof.
  unfold Lib.dispatch.
  set (w' := if Lib.lastDiffers (commandHistory w) input
             then with_commandHistory (commandHistory w ++ [input]) w else w).
  assert (Hw' : commandHistory w'
                = if Lib.lastDiffers (commandHistory w) input
                  then (commandHistory w ++ [input])%list else commandHistory w).
  { unfold w'. destruct (Lib.lastDiffers _ _); reflexivity. }
  rewrite <- Hw'.
  destruct (activeAddon (addonExecutor w')).
  - destruct (String.eqb _ _);
      [apply stopAddon_commandHistory | apply handleCommand_commandHistory].
  - destruct (Lib.tokenize input) as [|first parts]; [reflexivity|].
    destruct (JsString.toLowerCase (JsString.stripQuotes first)); [reflexivity|].
    destruct (Dict.get _ Lib.commands); [apply executeHandler_commandHistory|].
    destruct (Dict.inherited _); reflexivity.
Qed.

(** One unfolding of [runCommand]. *)
Lemma runCommand_unfold fuel host input w :
  Lib.runCommand (S fuel) host input w
  = match JsString.trim input with
    | EmptyString => Some (Normal w)
    | String a s =>
        if JsString.startsWith (String a s) "!" then
          match Lib.historyAt (commandHistory w)
                  (option_map (fun n => (n - 1)%Z)
                     (JsString.parseInt (JsString.substring1 (String a s)))) with
          | Some (String c' r') =>
              Lib.runCommand fuel host (String c' r') (Lib.print ("> " ++ String c' r') w)
          | _ => Some (Normal (Lib.print "Invalid history index." w))
          end
        else Some (Lib.dispatch host (String a s) w)
    end.
Proof.
  change (Lib.runCommand (S fuel) host input w)
    with (let input := JsString.trim input in
          match input with
          | EmptyString => Some (Normal w)
          | _ =>
              if JsString.startsWith input "!" then
                match Lib.historyAt (commandHistory w)
                        (option_map (fun n => (n - 1)%Z)
                           (JsString.parseInt (JsString.substring1 input))) with
                | Some (String c r) =>
                    Lib.runCommand fuel host (String c r) (Lib.print ("> " ++ String c r) w)
                | _ => Some (Normal (Lib.print "Invalid history index." w))
                end
              else Some (Lib.dispatch host input w)
          end).
  cbv zeta. destruct (JsString.trim input); reflexivity.
Qed.

(** A storable line is not a recall: [runCommand] dispatches it at once. *)
Lemma runCommand_storable fuel host e w :
  storable e = true ->
  Lib.runCommand (S fuel) host e w = Some (Lib.dispatch host e w).
Proof.
  intros H. apply storable_inv in H. destruct H as (Ht & Hne & Hs).
  rewrite runCommand_unfold, Ht. destruct e as [|c r]; [contradiction|].
  rewrite Hs. reflexivity.
Qed.

Lemma historyAt_In h idx e : Lib.historyAt h idx = Some e -> In e h.
Proof.
  unfold Lib.historyAt. destruct idx as [i|]; [|discriminate].
  destruct (0 <=? i)%Z; [|discriminate]. apply nth_error_In.
Qed.

(** [runCommand] keeps every entry of the history storable. *)
Lemma runCommand_storable_history fuel : forall host input w c,
  Forall (fun e => storable e = true) (commandHistory w) ->
  Lib.runCommand fuel host input w = Some c ->
  Forall (fun e => storable e = true) (commandHistory (state_of c)).
Proof.
  induction fuel as [|fuel IH]; intros host input w c Hh; [discriminate|].
  rewrite runCommand_unfold. destruct (JsString.trim input) as [|a s] eqn:T.
  - now intros [= <-].
  - destruct (JsString.startsWith (String a s) "!") eqn:B.
    + destruct (Lib.historyAt _ _) as [[|c' r']|].
      * now intros [= <-].
      * apply IH. exact Hh.
      * now intros [= <-].
    + intros [= <-]. rewrite dispatch_commandHistory.
      destruct (Lib.lastDiffers _ _); [|exact Hh].
      apply Forall_app. split; [exact Hh|]. constructor; [|constructor].
      rewrite <- T. apply trimmed_storable; rewrite T; [discriminate | exact B].
Qed.

Lemma reachable_storable w :
  reachable w -> Forall (fun e => storable e = true) (commandHistory w).
Proof.
  induction 1 as [t os ex | fuel host input w c _ IH Hrun | w t os ex _ IH].
  - constructor.
  - eapply runCommand_storable_history; eassumption.
  - exact IH.
Qed.

Lemma reachable_session fuel host inputs : forall w,
  reachable w -> reachable (session fuel host inputs w).
Proof.
  induction inputs as [|i r IH]; intros w Hw; simpl; [exact Hw|].
  destruct (Lib.runCommand fuel host i w) as [c|] eqn:E; [|exact Hw].
  apply IH. eapply reach_runCommand; eassumption.
Qed.

(** More fuel does not change what [runCommand] returns. *)
Lemma runCommand_more_fuel fuel : forall host input w c,
  Lib.runCommand fuel host input w = Some c ->
  Lib.runCommand (S fuel) host input w = Some c.
Proof.
  induction fuel as [|fuel IH]; intros host input w c; [discriminate|].
  intros H. rewrite runCommand_unfold in H. rewrite runCommand_unfold.
  destruct (JsString.trim input) as [|a s]; [exact H|].
  destruct (JsString.startsWith (String a s) "!"); [|exact H].
  destruct (Lib.historyAt _ _) as [[|c' r']|]; try exact H.
  apply IH. exact H.
Qed.

Lemma runCommand_two host input w :
  Forall (fun e => storable e = true) (commandHistory w) ->
  exists c, Lib.runCommand 2 host input w = Some c
            /\ forall fuel, Lib.runCommand (S (S fuel)) host input w = Some c.
Proof.
  intros Hh.
  assert (G : forall fuel,
             Lib.runCommand (S (S fuel)) host input w = Lib.runCommand 2 host input w).
  { intros fuel. rewrite !runCommand_unfold.
    destruct (JsString.trim input) as [|a s]; [reflexivity|].
    destruct (JsString.startsWith (String a s) "!"); [|reflexivity].
    destruct (Lib.historyAt _ _) as [[|c' r']|] eqn:E; try reflexivity.
    apply historyAt_In in E. rewrite Forall_forall in Hh. specialize (Hh _ E).
    now rewrite !runCommand_storable. }
  assert (E : exists c, Lib.runCommand 2 host input w = Some c).
  { rewrite runCommand_unfold.
    destruct (JsString.trim input) as [|a s]; [now eexists|].
    destruct (JsString.startsWith (String a s) "!"); [|now eexists].
    destruct (Lib.historyAt _ _) as [[|c' r']|] eqn:E; try now eexists.
    apply historyAt_In in E. rewrite Forall_forall in Hh. specialize (Hh _ E).
    rewrite runCommand_storable by exact Hh. now eexists. }
  destruct E as [c E]. exists c. split; [exact E|].
  intros fuel. now rewrite G.
Qed.

(** C9.  In every session no entry of the command history begins with [!],
    and the dispatch of any line returns: a recalled line is never a recall
    itself, so one nested call of [runCommand] is all the recursion there is,
    and fuel 2 and any more fuel give the same result. *)
Theorem C9_recall_terminates w :
  reachable w ->
  Forall (fun e => JsString.startsWith e "!" = false) (commandHistory w)
  /\ forall host input,
       exists c, Lib.runCommand 2 host input w = Some c
                 /\ forall fuel, Lib.runCommand (S (S fuel)) host input w = Some c.
Proof.
  intros Hr. apply reachable_storable in Hr. split.
  - eapply Forall_impl; [|exact Hr]. intros e He.
    apply storable_inv in He. destruct He as (_ & _ & He). exact He.
  - intros host input. now apply runCommand_two.
Qed.

Lemma C9_witness :
  exists c,
    Lib.runCommand 2 (mkHost "" (fun _ _ => 0%Z)) "!1"
      (session 2 (mkHost "" (fun _ _ => 0%Z)) ["echo hi"; "!1"; "pwd"]
         (Lib.new Term.new VFS.new Executor.new)) = Some c.
Proof.
  destruct (C9_recall_terminates
              (session 2 (mkHost "" (fun _ _ => 0%Z)) ["echo hi"; "!1"; "pwd"]
                 (Lib.new Term.new VFS.new Executor.new))
              (reachable_session _ _ _ _ (reach_new _ _ _))) as [_ H].
  destruct (H (mkHost "" (fun _ _ => 0%Z)) "!1") as (c & Hc & _).
  exists c. exact Hc.
Defined.




(** ** The [term] property of the executor is never bound *)

Lemma dispatch_executorTerm host input w :
  executorTerm (state_of (Lib.dispatch host input w)) = executorTerm w.
Proof.
  unfold Lib.dispatch.
  set (w' := if Lib.lastDiffers (commandHistory w) input
             then with_commandHistory (commandHistory w ++ [input]) w else w).
  assert (Hw' : executorTerm w' = executorTerm w).
  { unfold w'. destruct (Lib.lastDiffers _ _); reflexivity. }
  rewrite <- Hw'.
  destruct (activeAddon (addonExecutor w')).
  - destruct (String.eqb _ _);
      [apply (stopAddon_frame _ executorTerm) | apply (handleCommand_frame _ executorTerm)];
      reflexivity.
  - destruct (Lib.tokenize input) as [|first parts]; [reflexivity|].
    destruct (JsString.toLowerCase (JsString.stripQuotes first)); [reflexivity|].
    destruct (Dict.get _ Lib.commands); [|destruct (Dict.inherited _); reflexivity].
    apply (executeHandler_frame _ executorTerm). reflexivity.
Qed.

Lemma runCommand_executorTerm fuel : forall host input w c,
  Lib.runCommand fuel host input w = Some c ->
  executorTerm (state_of c) = executorTerm w.
Proof.
  induction fuel as [|fuel IH]; intros host input w c; [discriminate|].
  rewrite runCommand_unfold. destruct (JsString.trim input) as [|a s].
  - now intros [= <-].
  - destruct (JsString.startsWith (String a s) "!").
    + destruct (Lib.historyAt _ _) as [[|c' r']|].
      * now intros [= <-].
      * intros H. apply IH in H. exact H.
      * now intros [= <-].
    + intros [= <-]. apply dispatch_executorTerm.
Qed.

Lemma session_executorTerm fuel host inputs : forall w,
  executorTerm (session fuel host inputs w) = executorTerm w.
Proof.
  induction inputs as [|i r IH]; intros w; simpl; [reflexivity|].
  destruct (Lib.runCommand fuel host i w) as [c|] eqn:E; [|reflexivity].
  rewrite IH. eapply runCommand_executorTerm; exact E.
Qed.

(** In a session that starts with [new AddonExecutor()], whatever is
    dispatched, [stopAddon] on an active addon whose stop hook returns ends in
    the TypeError. *)
Lemma session_stopAddon_throws fuel host inputs t os a w1 :
  let w := session fuel host inputs (Lib.new t os Executor.new) in
  activeAddon (addonExecutor w) = Some a ->
  call (onStop a) w = Normal w1 ->
  Executor.stopAddon w
  = Abrupt (TypeError "Cannot read properties of undefined (reading 'print')")
      (with_activeAddon None w1).
Proof.
  intros w Ha Hc. apply stopAddon_without_term with (a := a); try assumption.
  change (executorTerm w = false). unfold w.
  now rewrite session_executorTerm.
Qed.

(** * Further properties of the file system *)

(** ** Laws of the dictionaries *)

Lemma get_place_same {A} k (v : A) d :
  Dict.get k d = None -> Dict.get k (Dict.place k v d) = Some v.
Proof.
  induction d as [|[k0 c] rest IH]; simpl.
  - now rewrite String.eqb_refl.
  - destruct (String.eqb_spec k0 k) as [->|Hk]; [discriminate|]. intros H.
    destruct (Dict.goesBefore (Dict.arrayIndex k) k0); simpl.
    + now rewrite String.eqb_refl.
    + destruct (String.eqb_spec k0 k); [contradiction | now apply IH].
Qed.

Lemma get_replace_same {A} k (v : A) d :
  Dict.get k d <> None -> Dict.get k (Dict.replace k v d) = Some v.
Proof.
  induction d as [|[k0 c] rest IH]; simpl; [congruence|].
  destruct (String.eqb_spec k0 k) as [->|Hk]; simpl.
  - now rewrite String.eqb_refl.
  - destruct (String.eqb_spec k0 k); [contradiction | exact IH].
Qed.

Lemma get_replace_other {A} k (v : A) d k' :
  k' <> k -> Dict.get k' (Dict.replace k v d) = Dict.get k' d.
Proof.
  intros Hk. induction d as [|[k0 c] rest IH]; simpl; [reflexivity|].
  destruct (String.eqb_spec k0 k) as [->|H0]; simpl.
  - destruct (String.eqb_spec k k'); [congruence | reflexivity].
  - now rewrite IH.
Qed.

Lemma get_set_same {A} k (v : A) d : Dict.get k (Dict.set k v d) = Some v.
Proof.
  unfold Dict.set. destruct (Dict.get k d) eqn:G.
  - apply get_replace_same. congruence.
  - now apply get_place_same.
Qed.

Lemma get_set_other {A} k (v : A) d k' :
  k' <> k -> Dict.get k' (Dict.set k v d) = Dict.get k' d.
Proof.
  intros Hk. unfold Dict.set. destruct (Dict.get k d).
  - now apply get_replace_other.
  - now apply get_place.
Qed.

Lemma remove_place {A} k (v : A) d :
  Dict.get k d = None -> Dict.remove k (Dict.place k v d) = d.
Proof.
  induction d as [|[k0 c] rest IH]; simpl.
  - now rewrite String.eqb_refl.
  - destruct (String.eqb_spec k0 k) as [->|Hk]; [discriminate|]. intros H.
    destruct (Dict.goesBefore (Dict.arrayIndex k) k0); simpl.
    + now rewrite String.eqb_refl.
    + destruct (String.eqb_spec k0 k); [contradiction|]. now rewrite IH.
Qed.

(** ** Updates of the tree *)

Lemma updateChild_ext k g1 g2 ch :
  (forall c, g1 c = g2 c) -> updateChild k g1 ch = updateChild k g2 ch.
Proof.
  intros H. induction ch as [|[k' c] rest IH]; simpl; [reflexivity|].
  destruct (String.eqb k' k); [now rewrite H | now rewrite IH].
Qed.

Lemma updateChild_twice k g1 g2 ch :
  updateChild k g1 (updateChild k g2 ch) = updateChild k (fun c => g1 (g2 c)) ch.
Proof.
  induction ch as [|[k' c] rest IH]; simpl; [reflexivity|].
  destruct (String.eqb k' k) eqn:E; simpl; rewrite E; [reflexivity | now rewrite IH].
Qed.

Lemma updateChild_fixed k g ch c :
  Dict.get k ch = Some c -> g c = c -> updateChild k g ch = ch.
Proof.
  induction ch as [|[k' c'] rest IH]; simpl; [reflexivity|].
  destruct (String.eqb k' k).
  - intros [= ->] ->. reflexivity.
  - intros G E. now rewrite IH.
Qed.

Lemma node_at_update_at f : forall d n nm ch,
  node_at n d = Some (VDirectory nm ch) ->
  node_at (update_children f n d) d = Some (VDirectory nm (f ch)).
Proof.
  induction d as [|k d IH]; intros n nm ch.
  - simpl. intros [= ->]. reflexivity.
  - destruct n as [|nm0 ch0]; [discriminate|].
    cbn [node_at]. destruct (Dict.get k ch0) as [c|] eqn:G; [|discriminate].
    intros H. rewrite update_children_dir. cbn [node_at].
    rewrite get_updateChild, String.eqb_refl, G. cbn [option_map]. now apply IH.
Qed.

Lemma update_children_twice f g : forall d n,
  update_children f (update_children g n d) d
  = update_children (fun ch => f (g ch)) n d.
Proof.
  induction d as [|k d IH]; intros [|nm ch]; try reflexivity.
  rewrite !update_children_dir, updateChild_twice.
  f_equal. apply updateChild_ext. exact (IH).
Qed.

Lemma update_children_fixed f : forall d n nm ch,
  node_at n d = Some (VDirectory nm ch) -> f ch = ch ->
  update_children f n d = n.
Proof.
  induction d as [|k d IH]; intros n nm ch.
  - simpl. intros [= ->] E. simpl. now rewrite E.
  - destruct n as [|nm0 ch0]; [discriminate|].
    cbn [node_at]. destruct (Dict.get k ch0) as [c|] eqn:G; [|discriminate].
    intros H E. rewrite update_children_dir. f_equal.
    apply updateChild_fixed with (c := c); [exact G|]. now apply (IH c nm ch).
Qed.

(** A node of the tree stays in the tree when an update keeps every entry of
    the directory it rewrites. *)
Lemma live_update f : forall r n d,
  (forall nm ch, node_at n d = Some (VDirectory nm ch) ->
     forall k c, Dict.get k ch = Some c -> Dict.get k (f ch) = Some c) ->
  node_at n r <> None ->
  node_at (update_children f n d) r <> None.
Proof.
  induction r as [|k r IH]; intros n d Hf H.
  - discriminate.
  - destruct n as [|nm ch]; [exact H|].
    cbn [node_at] in H. destruct (Dict.get k ch) as [c|] eqn:G; [|contradiction].
    destruct d as [|k0 d].
    + cbn [update_children node_at]. now rewrite (Hf nm ch eq_refl k c G).
    + rewrite update_children_dir. cbn [node_at]. rewrite get_updateChild, G.
      destruct (String.eqb_spec k0 k) as [->|_]; [|exact H].
      cbn [option_map]. apply IH; [|exact H].
      intros nm0 ch0 Hat. apply (Hf nm0 ch0). cbn [node_at]. now rewrite G.
Qed.

(** ** Resolution in a tree that has grown *)

Lemma live_prefix n r k : node_at n (r ++ [k]) <> None -> node_at n r <> None.
Proof.
  rewrite node_at_app. destruct (node_at n r); [discriminate | contradiction].
Qed.

Lemma getChild_live os cur part :
  node_at (root os) (cur ++ [part]) <> None ->
  VFS.getChild os cur part = Some (cur ++ [part]).
Proof.
  rewrite node_at_app. unfold VFS.getChild.
  destruct (node_at (root os) cur) as [[|nm ch]|]; simpl; try contradiction.
  destruct (Dict.get part ch); [reflexivity | contradiction].
Qed.

Lemma getParent_of_live os r :
  node_at (root os) r <> None -> VFS._getParent os r = match r with
                                                       | [] => None
                                                       | _ => Some (removelast r)
                                                       end.
Proof.
  intros H. destruct r as [|a b]; [reflexivity|].
  destruct (exists_last (l := a :: b)) as (r' & k & E); [discriminate|].
  rewrite E in *. rewrite removelast_snoc.
  destruct (node_at (root os) (r' ++ [k])) as [n|] eqn:Hat; [|contradiction].
  rewrite (getParent_live _ _ _ _ Hat). destruct (r' ++ [k]) eqn:E'; [|reflexivity].
  destruct r'; discriminate.
Qed.

Lemma live_removelast n r : node_at n r <> None -> node_at n (removelast r) <> None.
Proof.
  destruct r as [|a b]; [trivial|].
  destruct (exists_last (l := a :: b)) as (r' & k & E); [discriminate|].
  rewrite E, removelast_snoc. apply live_prefix.
Qed.

(** A walk that succeeds succeeds with the same result in any file system
    that still has every node of the first one. *)
Lemma walk_preserved os os' :
  (forall r, node_at (root os) r <> None -> node_at (root os') r <> None) ->
  forall parts start r,
    node_at (root os) start <> None ->
    VFS.walk os start parts = Some r ->
    VFS.walk os' start parts = Some r /\ node_at (root os) r <> None.
Proof.
  intros Hlive. induction parts as [|part rest IH]; intros start r Hs; simpl.
  - intros [= <-]. now split.
  - destruct (String.eqb part "..").
    + rewrite !getParent_of_live by auto.
      destruct start as [|a b]; [now apply IH|].
      apply IH. now apply live_removelast.
    + destruct (negb (String.eqb part ".")); [|now apply IH].
      destruct (VFS.getChild os start part) as [c|] eqn:G; [|discriminate].
      apply getChild_some in G. destruct G as [-> Hc].
      rewrite getChild_live by auto. now apply IH.
Qed.

Lemma resolvePath_preserved os os' path r :
  (forall r, node_at (root os) r <> None -> node_at (root os') r <> None) ->
  cwd os' = cwd os ->
  node_at (root os) (cwd os) <> None ->
  VFS._resolvePath os path = Some r ->
  VFS._resolvePath os' path = Some r.
Proof.
  intros Hlive Hcwd Hc. unfold VFS._resolvePath. rewrite Hcwd.
  destruct (String.eqb path "/"); [trivial|].
  intros W. apply (walk_preserved os os' Hlive) in W; [tauto|].
  destruct (JsString.startsWith path "/"); [discriminate | exact Hc].
Qed.

(** When [createNode] succeeds. *)
Lemma createNode_true os dirPath name node os' :
  VFS.createNode os dirPath name node = (os', true) ->
  exists d nm ch,
    VFS._resolvePath os dirPath = Some d
    /\ node_at (root os) d = Some (VDirectory nm ch)
    /\ Dict.get name ch = None
    /\ os' = mkVirtualOS (update_children (Dict.set name node) (root os) d) (cwd os).
Proof.
  unfold VFS.createNode.
  destruct (VFS._resolvePath os dirPath) as [d|]; [|discriminate].
  destruct (node_at (root os) d) as [[|nm ch]|] eqn:Hat; try discriminate.
  unfold Dict.defined.
  destruct (Dict.get name ch) eqn:G; [discriminate|].
  destruct (Dict.inherited name); [discriminate|].
  intros [= <-]. now exists d, nm, ch.
Qed.

Lemma insert_keeps_live tree d nm ch name node r :
  node_at tree d = Some (VDirectory nm ch) ->
  Dict.get name ch = None ->
  node_at tree r <> None ->
  node_at (update_children (Dict.set name node) tree d) r <> None.
Proof.
  intros Hat G. apply live_update.
  intros nm0 ch0 Hat0 k c Hk. rewrite Hat in Hat0. injection Hat0 as _ <-.
  rewrite get_set_other; [exact Hk|]. intros ->. congruence.
Qed.

Lemma inserted_node_at tree d nm ch name node :
  node_at tree d = Some (VDirectory nm ch) ->
  node_at (update_children (Dict.set name node) tree d) (d ++ [name]) = Some node.
Proof.
  intros Hat. rewrite node_at_app, (node_at_update_at _ _ _ _ _ Hat).
  simpl. now rewrite get_set_same.
Qed.

(** ** Splitting and joining paths *)

Lemma split_not_nil sep s : JsString.split sep s <> [].
Proof.
  destruct s as [|c r]; simpl; [discriminate|].
  destruct (Ascii.eqb c sep); [discriminate|].
  destruct (JsString.split sep r); discriminate.
Qed.

Lemma split_parts_free sep s :
  Forall (fun x => occurs sep x = false) (JsString.split sep s).
Proof.
  induction s as [|c r IH]; simpl.
  - constructor; [reflexivity | constructor].
  - destruct (Ascii.eqb c sep) eqn:E.
    + constructor; [reflexivity | exact IH].
    + destruct (JsString.split sep r) as [|h t]; inversion IH; subst;
        constructor; simpl; try rewrite E; auto.
Qed.

Lemma split_free sep s : occurs sep s = false -> JsString.split sep s = [s].
Proof.
  induction s as [|c r IH]; simpl; [reflexivity|].
  rewrite orb_false_iff. intros [-> H]. now rewrite (IH H).
Qed.

Lemma split_app_sep sep a r :
  occurs sep a = false ->
  JsString.split sep (a ++ String sep r) = a :: JsString.split sep r.
Proof.
  induction a as [|c a IH]; simpl.
  - intros _. now rewrite Ascii.eqb_refl.
  - rewrite orb_false_iff. intros [-> H]. now rewrite (IH H).
Qed.

Lemma split_join sep l :
  l <> [] ->
  Forall (fun x => occurs sep x = false) l ->
  JsString.split sep (JsString.join (String sep EmptyString) l) = l.
Proof.
  unfold JsString.join. intros Hne H.
  induction H as [|x l Hx Hl IH]; [contradiction|].
  destruct l as [|y l'].
  - simpl. now apply split_free.
  - change (String.concat (String sep "") (x :: y :: l'))
      with (x ++ String sep (String.concat (String sep "") (y :: l')))%string.
    rewrite split_app_sep by exact Hx. f_equal. apply IH. discriminate.
Qed.

Lemma join_empty sep l :
  JsString.join (String sep EmptyString) l = EmptyString ->
  filter JsString.nonEmpty l = [].
Proof.
  unfold JsString.join. destruct l as [|x [|y l']]; simpl.
  - reflexivity.
  - intros ->. reflexivity.
  - destruct x; discriminate.
Qed.

Lemma split_parts path :
  JsString.split "/" path = (VFS.remaining path ++ [VFS.popped path])%list.
Proof.
  unfold VFS.remaining, VFS.popped.
  apply app_removelast_last. apply split_not_nil.
Qed.

Lemma remaining_free path :
  Forall (fun x => occurs "/" x = false) (VFS.remaining path).
Proof.
  pose proof (split_parts_free "/" path) as H.
  rewrite split_parts in H. apply Forall_app in H. tauto.
Qed.

(** The segments of a path are those of its directory part followed by its
    last part, when that is not empty. *)
Lemma segments_parts path :
  VFS.popped path <> EmptyString ->
  VFS.segments path = (VFS.segments (VFS.dirPathOf path) ++ [VFS.popped path])%list.
Proof.
  intros Hne. unfold VFS.segments at 1. rewrite split_parts, filter_app.
  simpl. destruct (VFS.popped path) eqn:E; [contradiction|]. simpl. f_equal.
  unfold VFS.dirPathOf.
  destruct (JsString.join "/" (VFS.remaining path)) eqn:J.
  - now rewrite (join_empty _ _ J).
  - rewrite <- J. unfold VFS.segments. rewrite split_join; [reflexivity | | apply remaining_free].
    intros E0. rewrite E0 in J. discriminate J.
Qed.

Lemma dirPathOf_absolute path :
  JsString.startsWith path "/" = true ->
  JsString.startsWith (VFS.dirPathOf path) "/" = true.
Proof.
  destruct path as [|c r]; [discriminate|]. simpl.
  destruct (Ascii.eqb_spec c "/") as [->|]; [|discriminate]. intros _.
  unfold VFS.dirPathOf, VFS.remaining.
  change (JsString.split "/" (String "/" r)) with (EmptyString :: JsString.split "/" r).
  destruct (JsString.split "/" r) as [|h t] eqn:E; [now apply split_not_nil in E|].
  change (removelast (EmptyString :: h :: t)) with (EmptyString :: removelast (h :: t)).
  destruct (removelast (h :: t)) as [|h' t']; reflexivity.
Qed.

Lemma slashless_parts path :
  occurs "/" path = false ->
  VFS.popped path = path /\ VFS.dirPathOf path = "/"
  /\ VFS.popped (String "/" path) = path /\ VFS.dirPathOf (String "/" path) = "/".
Proof.
  intros H. unfold VFS.popped, VFS.dirPathOf, VFS.remaining.
  change (JsString.split "/" (String "/" path)) with (EmptyString :: JsString.split "/" path).
  rewrite (split_free _ _ H). repeat split.
Qed.

Lemma split_single sep s x : JsString.split sep s = [x] -> occurs sep s = false.
Proof.
  revert x. induction s as [|c r IH]; intros x; simpl; [reflexivity|].
  destruct (Ascii.eqb c sep).
  - intros [= _ E]. now apply split_not_nil in E.
  - destruct (JsString.split sep r) as [|h t] eqn:E; [now apply split_not_nil in E|].
    intros [= _ ->]. simpl. now apply (IH h).
Qed.

Lemma dirPathOf_start path :
  occurs "/" path = true ->
  JsString.startsWith (VFS.dirPathOf path) "/" = JsString.startsWith path "/".
Proof.
  intros Hocc. destruct (JsString.startsWith path "/") eqn:S.
  - now apply dirPathOf_absolute.
  - destruct path as [|c r]; [discriminate|]. simpl in S.
    rewrite andb_true_r in S.
    simpl in Hocc. rewrite S in Hocc. simpl in Hocc.
    unfold VFS.dirPathOf, VFS.remaining. simpl. rewrite S.
    destruct (JsString.split "/" r) as [|h t] eqn:E; [now apply split_not_nil in E|].
    destruct t as [|h2 t2].
    + apply split_single in E. congruence.
    + change (removelast (String c h :: h2 :: t2)) with (String c h :: removelast (h2 :: t2)).
      destruct (removelast (h2 :: t2)); simpl; now rewrite S.
Qed.

(** ** What the operations of the file system do *)

(** X1.  In every state the operations of [VirtualOS] lead to, the root is a
    directory, every node is named by the key it is stored under, and [cwd]
    is a directory of the tree. *)
Theorem fs_invariant os :
  vfs_reachable os ->
  isDirectory (root os) = true
  /\ (forall r k n, node_at (root os) (r ++ [k]) = Some n -> node_name n = k)
  /\ directory_at (root os) (cwd os) = true.
Proof.
  intros H. apply reachable_wellFormed in H. unfold wellFormed in H.
  rewrite !andb_true_iff in H. destruct H as [[Hd Hn] Hc].
  repeat split; try assumption.
  intros r k n. now apply name_at_snoc.
Qed.

Lemma fs_invariant_witness :
  directory_at
    (root (fst (VFS.changeDir (fst (VFS.createDirectory VFS.new "/D/games")) "/D/games")))
    ["D"; "games"] = true.
Proof.
  apply (fs_invariant
           (fst (VFS.changeDir (fst (VFS.createDirectory VFS.new "/D/games")) "/D/games"))).
  apply vfs_changeDir, vfs_createDirectory, vfs_new.
Defined.

(** X3.  A call that returns false has not touched the file system. *)
Theorem failure_leaves_fs os path content type os' :
  (VFS.createFile os path content type = (os', false) -> os' = os)
  /\ (VFS.createDirectory os path = (os', false) -> os' = os)
  /\ (VFS.deleteFile os path = (os', false) -> os' = os)
  /\ (VFS.changeDir os path = (os', false) -> os' = os).
Proof.
  assert (C : forall dp name node,
             VFS.createNode os dp name node = (os', false) -> os' = os).
  { intros dp name node. unfold VFS.createNode.
    destruct (VFS._resolvePath os dp) as [d|]; [|congruence].
    destruct (node_at (root os) d) as [[|nm ch]|]; try congruence.
    destruct (Dict.defined name ch); [congruence | discriminate]. }
  repeat split.
  - apply C.
  - apply C.
  - unfold VFS.deleteFile.
    destruct (VFS._resolvePath os _) as [d|]; [|congruence].
    destruct (node_at (root os) d) as [[|nm ch]|]; try congruence.
    destruct (Dict.get _ ch) as [[|]|]; congruence.
  - unfold VFS.changeDir.
    destruct (VFS._resolvePath os path) as [d|]; [|congruence].
    destruct (node_at (root os) d) as [[|nm ch]|]; congruence.
Qed.

(** X4.  When [createFile] returns true, the directory that the directory part of
    the path resolves to holds a new file under the last part of the path,
    with that name and the given content and type; [cwd] is the same, no node
    has left the tree and every path resolves to the node it resolved to. *)
Theorem createFile_success os path content type os' :
  wellFormed os = true ->
  VFS.createFile os path content type = (os', true) ->
  exists d,
    VFS._resolvePath os (VFS.dirPathOf path) = Some d
    /\ node_at (root os') (d ++ [VFS.popped path])
       = Some (VFile (VFS.popped path) content type)
    /\ cwd os' = cwd os
    /\ (forall r, node_at (root os) r <> None -> node_at (root os') r <> None)
    /\ (forall p r, VFS._resolvePath os p = Some r -> VFS._resolvePath os' p = Some r).
Proof.
  intros Hwf H. apply createNode_true in H.
  destruct H as (d & nm & ch & Hres & Hat & G & ->).
  exists d. split; [exact Hres|]. split; [now apply (inserted_node_at _ _ nm ch)|].
  split; [reflexivity|].
  assert (L : forall r, node_at (root os) r <> None ->
                        node_at (update_children
                                   (Dict.set (VFS.popped path)
                                      (VFile (VFS.popped path) content type))
                                   (root os) d) r <> None).
  { intros r. now apply (insert_keeps_live _ _ nm ch). }
  split; [exact L|].
  intros p r. apply resolvePath_preserved; [exact L | reflexivity | now apply wellFormed_cwd].
Qed.

Lemma createFile_success_witness :
  exists d,
    VFS._resolvePath VFS.new (VFS.dirPathOf "/C/Users/notes.txt") = Some d
    /\ node_at (root (fst (VFS.createFile VFS.new "/C/Users/notes.txt" "hello" "text")))
         (d ++ [VFS.popped "/C/Users/notes.txt"])
       = Some (VFile (VFS.popped "/C/Users/notes.txt") "hello" "text").
Proof.
  destruct (createFile_success VFS.new "/C/Users/notes.txt" "hello" "text"
              (fst (VFS.createFile VFS.new "/C/Users/notes.txt" "hello" "text"))
              eq_refl eq_refl) as (d & H1 & H2 & _).
  exists d. now split.
Defined.

(** X5.  The same for [createDirectory]: the new directory is empty and named
    after the last part of the path, or after the whole path when that part is
    empty. *)
Theorem createDirectory_success os path os' :
  wellFormed os = true ->
  VFS.createDirectory os path = (os', true) ->
  let dirname := match VFS.popped path with EmptyString => path | n => n end in
  exists d,
    VFS._resolvePath os (VFS.dirPathOf path) = Some d
    /\ node_at (root os') (d ++ [dirname]) = Some (VDirectory dirname [])
    /\ cwd os' = cwd os
    /\ (forall r, node_at (root os) r <> None -> node_at (root os') r <> None)
    /\ (forall p r, VFS._resolvePath os p = Some r -> VFS._resolvePath os' p = Some r).
Proof.
  intros Hwf H dirname. apply createNode_true in H.
  destruct H as (d & nm & ch & Hres & Hat & G & ->).
  exists d. split; [exact Hres|]. split; [now apply (inserted_node_at _ _ nm ch)|].
  split; [reflexivity|].
  assert (L : forall r, node_at (root os) r <> None ->
                        node_at (update_children
                                   (Dict.set dirname (VDirectory dirname []))
                                   (root os) d) r <> None).
  { intros r. now apply (insert_keeps_live _ _ nm ch). }
  split; [exact L|].
  intros p r. apply resolvePath_preserved; [exact L | reflexivity | now apply wellFormed_cwd].
Qed.

Lemma createDirectory_success_witness :
  exists d,
    VFS._resolvePath VFS.new (VFS.dirPathOf "/D/") = Some d
    /\ node_at (root (fst (VFS.createDirectory VFS.new "/D/"))) (d ++ ["/D/"])
       = Some (VDirectory "/D/" []).
Proof.
  destruct (createDirectory_success VFS.new "/D/"
              (fst (VFS.createDirectory VFS.new "/D/")) eq_refl eq_refl)
    as (d & H1 & H2 & _).
  exists d. now split.
Defined.

(** X6.  A path without a slash names a child of the root, wherever [cwd] is:
    [createFile], [deleteFile] and, for a non-empty path, [createDirectory]
    treat it like the same path with a slash in front, and a file created
    that way is stored directly under the root. *)
Theorem slashless_path_is_in_root os path content type :
  occurs "/" path = false ->
  VFS.createFile os path content type = VFS.createFile os (String "/" path) content type
  /\ VFS.deleteFile os path = VFS.deleteFile os (String "/" path)
  /\ (path <> EmptyString ->
      VFS.createDirectory os path = VFS.createDirectory os (String "/" path))
  /\ (forall os', VFS.createFile os path content type = (os', true) ->
                  node_at (root os') [path] = Some (VFile path content type)).
Proof.
  intros H. destruct (slashless_parts path H) as (P1 & D1 & P2 & D2).
  repeat split.
  - unfold VFS.createFile. now rewrite P1, D1, P2, D2.
  - unfold VFS.deleteFile. now rewrite P1, D1, P2, D2.
  - intros Hne. unfold VFS.createDirectory. rewrite P1, D1, P2, D2.
    destruct path; [contradiction | reflexivity].
  - intros os' Hc. unfold VFS.createFile in Hc. rewrite P1, D1 in Hc.
    apply createNode_true in Hc. destruct Hc as (d & nm & ch & Hres & Hat & G & ->).
    injection Hres as <-. apply (inserted_node_at _ [] nm ch). exact Hat.
Qed.

Lemma slashless_path_is_in_root_witness :
  VFS.createFile (fst (VFS.changeDir VFS.new "/C/Users")) "notes.txt" "" "text"
  = VFS.createFile (fst (VFS.changeDir VFS.new "/C/Users")) "/notes.txt" "" "text".
Proof.
  apply (slashless_path_is_in_root (fst (VFS.changeDir VFS.new "/C/Users"))
           "notes.txt" "" "text").
  reflexivity.
Defined.

Lemma created_node_resolves os path name node os' :
  wellFormed os = true ->
  occurs "/" path = true ->
  name = VFS.popped path ->
  name <> EmptyString -> name <> "." -> name <> ".." ->
  VFS.createNode os (VFS.dirPathOf path) name node = (os', true) ->
  exists r, VFS._resolvePath os' path = Some r /\ node_at (root os') r = Some node.
Proof.
  intros Hwf Hocc Hname Hne Hdot Hdd H. apply createNode_true in H.
  destruct H as (d & nm & ch & Hres & Hat & G & ->).
  set (tree' := update_children (Dict.set name node) (root os) d).
  exists (d ++ [name])%list. split; [|now apply (inserted_node_at _ _ nm ch)].
  set (start := if JsString.startsWith path "/" then [] else cwd os).
  assert (Hstart : node_at (root os) start <> None).
  { unfold start. destruct (JsString.startsWith path "/");
      [discriminate | now apply wellFormed_cwd]. }
  assert (W : VFS.walk os start (VFS.segments (VFS.dirPathOf path)) = Some d).
  { unfold VFS._resolvePath in Hres. rewrite (dirPathOf_start _ Hocc) in Hres.
    destruct (String.eqb_spec (VFS.dirPathOf path) "/") as [E|_]; [|exact Hres].
    injection Hres as <-. rewrite E, segments_slash.
    unfold start. rewrite <- (dirPathOf_start _ Hocc), E. reflexivity. }
  apply (walk_preserved os (mkVirtualOS tree' (cwd os))) in W; [|
    intros r; now apply (insert_keeps_live _ _ nm ch) | exact Hstart].
  destruct W as [W _].
  unfold VFS._resolvePath.
  destruct (String.eqb_spec path "/") as [E|_].
  { subst path. now subst name. }
  rewrite segments_parts by (rewrite <- Hname; exact Hne).
  rewrite <- Hname, walk_app. cbn [cwd]. subst start.
  match goal with
  | |- match ?X with _ => _ end = _ => replace X with (Some d) by (symmetry; exact W)
  end.
  simpl.
  destruct (String.eqb_spec name "..") as [?|_]; [contradiction|].
  destruct (String.eqb_spec name ".") as [?|_]; [contradiction|]. simpl.
  rewrite getChild_live; [reflexivity|].
  cbn [root]. unfold tree'. rewrite (inserted_node_at _ _ nm ch _ _ Hat). discriminate.
Qed.

(** X7.  A node created through a path that contains a slash and ends in a plain
    name is what that path resolves to right after the creation. *)
Theorem created_node_is_resolved os path content type os' :
  wellFormed os = true ->
  occurs "/" path = true ->
  plainName (VFS.popped path) = true ->
  (VFS.createFile os path content type = (os', true) ->
   exists r, VFS._resolvePath os' path = Some r
             /\ node_at (root os') r = Some (VFile (VFS.popped path) content type))
  /\ (VFS.createDirectory os path = (os', true) ->
      exists r, VFS._resolvePath os' path = Some r
                /\ node_at (root os') r = Some (VDirectory (VFS.popped path) [])).
Proof.
  intros Hwf Hocc Hplain. unfold plainName in Hplain.
  rewrite !andb_true_iff, !negb_true_iff in Hplain.
  destruct Hplain as [[[Hne _] Hdot] Hdd].
  apply String.eqb_neq in Hdot, Hdd.
  assert (Hne' : VFS.popped path <> EmptyString).
  { intros E. rewrite E in Hne. discriminate. }
  split; intros H.
  - now apply (created_node_resolves os path (VFS.popped path) _ os').
  - unfold VFS.createDirectory in H.
    destruct (VFS.popped path) eqn:E; [contradiction|]. rewrite <- E in *.
    now apply (created_node_resolves os path (VFS.popped path) _ os').
Qed.

Lemma created_node_is_resolved_witness :
  exists r,
    VFS._resolvePath (fst (VFS.createFile (fst (VFS.changeDir VFS.new "C"))
                             "Users/../Program Files/a.txt" "x" "text"))
      "Users/../Program Files/a.txt" = Some r
    /\ node_at (root (fst (VFS.createFile (fst (VFS.changeDir VFS.new "C"))
                             "Users/../Program Files/a.txt" "x" "text"))) r
       = Some (VFile "a.txt" "x" "text").
Proof.
  apply (created_node_is_resolved (fst (VFS.changeDir VFS.new "C"))
           "Users/../Program Files/a.txt" "x" "text"
           (fst (VFS.createFile (fst (VFS.changeDir VFS.new "C"))
                   "Users/../Program Files/a.txt" "x" "text"))); reflexivity.
Defined.

(** X8.  Deleting a file right after it was created, through the same path, gives
    back the file system as it was before the creation. *)
Theorem createFile_then_deleteFile os path content type os' :
  wellFormed os = true ->
  VFS.createFile os path content type = (os', true) ->
  VFS.deleteFile os' path = (os, true).
Proof.
  intros Hwf H.
  apply createNode_true in H. destruct H as (d & nm & ch & Hres & Hat & G & ->).
  unfold VFS.deleteFile.
  rewrite (resolvePath_preserved os
             (mkVirtualOS
                (update_children
                   (Dict.set (VFS.popped path) (VFile (VFS.popped path) content type))
                   (root os) d) (cwd os))
             _ d
             (fun r => insert_keeps_live _ _ nm ch _ _ r Hat G) eq_refl
             (wellFormed_cwd _ Hwf) Hres).
  cbn [root cwd].
  rewrite (node_at_update_at _ _ _ _ _ Hat), get_set_same.
  rewrite update_children_twice.
  rewrite (update_children_fixed _ _ _ nm ch Hat).
  - now destruct os.
  - unfold Dict.set. rewrite G. now apply remove_place.
Qed.

Lemma createFile_then_deleteFile_witness :
  VFS.deleteFile (fst (VFS.createFile VFS.new "/C/Users/a.txt" "x" "text")) "/C/Users/a.txt"
  = (VFS.new, true).
Proof.
  apply (createFile_then_deleteFile VFS.new "/C/Users/a.txt" "x" "text"); reflexivity.
Defined.

Lemma walk_live os : forall r start,
  node_at (root os) (start ++ r) <> None ->
  Forall (fun k => plainName k = true) r ->
  VFS.walk os start r = Some (start ++ r)%list.
Proof.
  induction r as [|k r IH]; intros start Hlive Hp.
  - simpl. now rewrite app_nil_r.
  - inversion Hp as [|? ? Hk Hr]; subst. unfold plainName in Hk.
    rewrite !andb_true_iff, !negb_true_iff in Hk. destruct Hk as [[_ Hdot] Hdd].
    simpl. rewrite Hdd, Hdot. simpl.
    replace (start ++ k :: r)%list with ((start ++ [k]) ++ r)%list in *
      by now rewrite <- app_assoc.
    rewrite getChild_live.
    + now apply IH.
    + rewrite node_at_app in Hlive.
      destruct (node_at (root os) (start ++ [k])); [discriminate | contradiction].
Qed.

(** X10.  The path that [_getFullPath] writes for a node resolves back to that node,
    when every name on the way to it is plain. *)
Theorem fullPath_resolves_back os r :
  wellFormed os = true ->
  node_at (root os) r <> None ->
  Forall (fun k => plainName k = true) r ->
  VFS._resolvePath os (VFS._getFullPath os r) = Some r.
Proof.
  intros Hwf Hlive Hp.
  rewrite getFullPath_live by (try apply wellFormed_names; assumption).
  destruct r as [|k r]; [reflexivity|].
  assert (Hfree : Forall (fun x => occurs "/" x = false) (k :: r)).
  { eapply Forall_impl; [|exact Hp]. intros a Ha. unfold plainName in Ha.
    rewrite !andb_true_iff, !negb_true_iff in Ha. tauto. }
  assert (Hfull : filter JsString.nonEmpty (k :: r) = k :: r).
  { clear - Hp. induction Hp as [|a l Ha _ IH]; [reflexivity|].
    unfold plainName in Ha. rewrite !andb_true_iff in Ha.
    destruct Ha as [[[Ha _] _] _]. simpl. now rewrite Ha, IH. }
  unfold absolutePath, VFS._resolvePath.
  change ("/" ++ JsString.join "/" (k :: r))%string
    with (String "/" (JsString.join "/" (k :: r))).
  assert (Hj : JsString.join "/" (k :: r) <> EmptyString).
  { inversion Hp as [|? ? Hk _]; subst. unfold plainName in Hk.
    rewrite !andb_true_iff in Hk. destruct Hk as [[[Hk _] _] _].
    destruct k; [discriminate|]. unfold JsString.join. simpl. destruct r; discriminate. }
  destruct (String.eqb_spec (String "/" (JsString.join "/" (k :: r))) "/") as [E|_].
  { injection E as E. contradiction. }
  unfold VFS.segments.
  change (JsString.split "/" (String "/" (JsString.join "/" (k :: r))))
    with (EmptyString :: JsString.split "/" (JsString.join "/" (k :: r))).
  rewrite (split_join "/" (k :: r)) by (try discriminate; exact Hfree).
  change (filter JsString.nonEmpty (EmptyString :: k :: r))
    with (filter JsString.nonEmpty (k :: r)).
  rewrite Hfull. cbn [JsString.startsWith Ascii.eqb Bool.eqb andb].
  apply (walk_live os (k :: r) []); assumption.
Qed.

Lemma fullPath_resolves_back_witness :
  VFS._resolvePath VFS.new (VFS._getFullPath VFS.new ["C"; "Program Files"])
  = Some ["C"; "Program Files"].
Proof.
  apply fullPath_resolves_back.
  - reflexivity.
  - discriminate.
  - repeat constructor.
Defined.

(** ** Sibling names are unique *)

Lemma unique_ok_dir nm ch : unique_ok (VDirectory nm ch) = children_unique ch.
Proof.
  simpl. induction ch as [|[k c] r IH]; simpl; [reflexivity|]. now rewrite IH.
Qed.

Lemma children_unique_cons k c r :
  children_unique ((k, c) :: r) = true
  <-> Dict.get k r = None /\ unique_ok c = true /\ children_unique r = true.
Proof.
  simpl. rewrite !andb_true_iff. destruct (Dict.get k r); intuition congruence.
Qed.

Lemma children_unique_place k v ch :
  Dict.get k ch = None -> unique_ok v = true ->
  children_unique ch = true -> children_unique (Dict.place k v ch) = true.
Proof.
  intros G Hv. induction ch as [|[k0 c] rest IH]; intros H.
  - simpl. now rewrite Hv.
  - simpl in G. destruct (String.eqb_spec k0 k) as [->|Hk]; [discriminate|].
    apply children_unique_cons in H. destruct H as (H0 & Hc & Hr).
    cbn [Dict.place]. destruct (Dict.goesBefore (Dict.arrayIndex k) k0).
    + apply children_unique_cons. repeat split; try assumption.
      * simpl. destruct (String.eqb_spec k0 k); [contradiction | exact G].
      * apply children_unique_cons. now repeat split.
    + apply children_unique_cons. repeat split; try assumption.
      * rewrite get_place by exact Hk. exact H0.
      * now apply IH.
Qed.

Lemma children_unique_replace k v ch :
  unique_ok v = true ->
  children_unique ch = true -> children_unique (Dict.replace k v ch) = true.
Proof.
  intros Hv. induction ch as [|[k0 c] rest IH]; intros H; [reflexivity|].
  apply children_unique_cons in H. destruct H as (H0 & Hc & Hr).
  cbn [Dict.replace]. destruct (String.eqb_spec k0 k) as [->|Hk].
  - apply children_unique_cons. now repeat split.
  - apply children_unique_cons. repeat split; try assumption.
    + rewrite get_replace_other by exact Hk. exact H0.
    + now apply IH.
Qed.

Lemma children_unique_set k v ch :
  unique_ok v = true ->
  children_unique ch = true -> children_unique (Dict.set k v ch) = true.
Proof.
  intros Hv H. unfold Dict.set. destruct (Dict.get k ch) eqn:G.
  - now apply children_unique_replace.
  - now apply children_unique_place.
Qed.

Lemma children_unique_remove k ch :
  children_unique ch = true -> children_unique (Dict.remove k ch) = true.
Proof.
  induction ch as [|[k0 c] rest IH]; intros H; [reflexivity|].
  apply children_unique_cons in H. destruct H as (H0 & Hc & Hr).
  cbn [Dict.remove]. destruct (String.eqb_spec k0 k) as [->|Hk]; [exact Hr|].
  apply children_unique_cons. repeat split; try assumption.
  - rewrite get_remove by exact Hk. exact H0.
  - now apply IH.
Qed.

Lemma get_remove_same k ch :
  children_unique ch = true -> Dict.get k (Dict.remove k ch) = None.
Proof.
  induction ch as [|[k0 c] rest IH]; intros H; [reflexivity|].
  apply children_unique_cons in H. destruct H as (H0 & Hc & Hr).
  cbn [Dict.remove]. destruct (String.eqb_spec k0 k) as [->|Hk]; [exact H0|].
  simpl. destruct (String.eqb_spec k0 k); [contradiction | now apply IH].
Qed.

Lemma unique_ok_update f :
  (forall ch, children_unique ch = true -> children_unique (f ch) = true) ->
  forall r n, unique_ok n = true -> unique_ok (update_children f n r) = true.
Proof.
  intros Hf. induction r as [|k r IH]; intros [|nm ch] Hn; try exact Hn.
  - simpl update_children. rewrite unique_ok_dir in *. now apply Hf.
  - rewrite update_children_dir, unique_ok_dir. rewrite unique_ok_dir in Hn.
    induction ch as [|[k' c] rest IHch]; [reflexivity|].
    apply children_unique_cons in Hn. destruct Hn as (H0 & Hc & Hrest).
    cbn [updateChild]. destruct (String.eqb_spec k' k) as [->|Hk].
    + apply children_unique_cons. repeat split; try assumption. now apply IH.
    + apply children_unique_cons. repeat split; try assumption.
      * rewrite get_updateChild.
        destruct (String.eqb_spec k k') as [E|_]; [congruence | exact H0].
      * now apply IHch.
Qed.

Lemma unique_ok_at r : forall n m,
  unique_ok n = true -> node_at n r = Some m -> unique_ok m = true.
Proof.
  induction r as [|k r IH]; intros n m Hn; simpl.
  - now intros [= <-].
  - destruct n as [|nm ch]; [discriminate|].
    destruct (Dict.get k ch) as [c|] eqn:G; [|discriminate].
    apply IH. rewrite unique_ok_dir in Hn. clear - Hn G.
    induction ch as [|[k0 c0] rest IHc]; [discriminate|].
    apply children_unique_cons in Hn. destruct Hn as (_ & Hc & Hr).
    simpl in G. destruct (String.eqb k0 k); [now injection G as <- | now apply IHc].
Qed.

Lemma children_unique_NoDup ch :
  children_unique ch = true -> NoDup (map fst ch).
Proof.
  induction ch as [|[k c] rest IH]; intros H; [constructor|].
  apply children_unique_cons in H. destruct H as (H0 & _ & Hr).
  simpl. constructor; [|now apply IH].
  clear - H0. induction rest as [|[k1 c1] rest IH]; [intros []|].
  simpl in *. destruct (String.eqb_spec k1 k) as [->|Hk]; [discriminate|].
  intros [E|E]; [congruence | now apply IH].
Qed.

Lemma reachable_unique os : vfs_reachable os -> unique_ok (root os) = true.
Proof.
  assert (C : forall os dp name node,
             unique_ok node = true -> unique_ok (root os) = true ->
             unique_ok (root (fst (VFS.createNode os dp name node))) = true).
  { intros os0 dp name node Hnode H. unfold VFS.createNode.
    destruct (VFS._resolvePath os0 dp) as [d|]; [|exact H].
    destruct (node_at (root os0) d) as [[|nm ch]|]; try exact H.
    destruct (Dict.defined name ch); [exact H|].
    cbn [fst root]. apply unique_ok_update; [|exact H].
    intros ch0. now apply children_unique_set. }
  induction 1 as [|os path content type _ IH|os path _ IH|os path _ IH|os path _ IH].
  - reflexivity.
  - now apply C.
  - now apply C.
  - unfold VFS.deleteFile.
    destruct (VFS._resolvePath os _) as [d|]; [|exact IH].
    destruct (node_at (root os) d) as [[|nm ch]|]; try exact IH.
    destruct (Dict.get _ ch) as [[|]|]; try exact IH.
    cbn [fst root]. apply unique_ok_update; [|exact IH].
    intros ch0. apply children_unique_remove.
  - unfold VFS.changeDir.
    destruct (VFS._resolvePath os path) as [d|]; [|exact IH].
    destruct (node_at (root os) d) as [[|nm ch]|]; exact IH.
Qed.

(** X2.  In every state the operations of [VirtualOS] lead to, the children of a
    directory have pairwise different keys, and so pairwise different
    names. *)
Theorem sibling_names_unique os r nm ch :
  vfs_reachable os ->
  node_at (root os) r = Some (VDirectory nm ch) ->
  NoDup (map fst ch) /\ NoDup (map (fun kv => node_name (snd kv)) ch).
Proof.
  intros Hr Hat.
  pose proof (unique_ok_at _ _ _ (reachable_unique _ Hr) Hat) as Hu.
  rewrite unique_ok_dir in Hu. apply children_unique_NoDup in Hu.
  split; [exact Hu|].
  apply reachable_wellFormed in Hr. apply wellFormed_names in Hr.
  pose proof (names_ok_at _ _ _ Hr Hat) as Hn. rewrite names_ok_dir in Hn.
  replace (map (fun kv => node_name (snd kv)) ch) with (map fst ch); [exact Hu|].
  clear - Hn. induction ch as [|[k c] rest IH]; [reflexivity|].
  simpl in Hn. rewrite !andb_true_iff in Hn. destruct Hn as [[Hk _] Hrest].
  apply String.eqb_eq in Hk. simpl. now rewrite Hk, IH.
Qed.

Lemma sibling_names_unique_witness :
  NoDup (map fst [("C", VDirectory "C" [("Users", VDirectory "Users" []);
                                        ("Program Files", VDirectory "Program Files" [])]);
                  ("D", VDirectory "D" []);
                  ("readme.txt", VFile "readme.txt" "Welcome to the terminal!" "text");
                  ("a", VDirectory "a" [])]).
Proof.
  apply (sibling_names_unique (fst (VFS.createDirectory VFS.new "a")) [] "/").
  - apply vfs_createDirectory, vfs_new.
  - reflexivity.
Defined.

(** X9.  When [deleteFile] returns true, what the last part of the path named in
    the directory that the directory part resolves to was a file; afterwards
    that directory has no child of that name, its other children and [cwd]
    are as before. *)
Theorem deleteFile_success os path os' :
  unique_ok (root os) = true ->
  VFS.deleteFile os path = (os', true) ->
  exists d nm ch name content type,
    VFS._resolvePath os (VFS.dirPathOf path) = Some d
    /\ node_at (root os) d = Some (VDirectory nm ch)
    /\ Dict.get (VFS.popped path) ch = Some (VFile name content type)
    /\ node_at (root os') d = Some (VDirectory nm (Dict.remove (VFS.popped path) ch))
    /\ node_at (root os') (d ++ [VFS.popped path]) = None
    /\ (forall k, k <> VFS.popped path ->
                  node_at (root os') (d ++ [k]) = node_at (root os) (d ++ [k]))
    /\ cwd os' = cwd os.
Proof.
  intros Hu. unfold VFS.deleteFile.
  destruct (VFS._resolvePath os _) as [d|]; [|discriminate].
  destruct (node_at (root os) d) as [[|nm ch]|] eqn:Hat; try discriminate.
  destruct (Dict.get _ ch) as [[name content type|]|] eqn:G; try discriminate.
  intros [= <-]. exists d, nm, ch, name, content, type. cbn [root cwd].
  pose proof (node_at_update_at (Dict.remove (VFS.popped path)) _ _ _ _ Hat) as Hd.
  repeat split; try assumption.
  - rewrite node_at_app, Hd. simpl. rewrite get_remove_same; [reflexivity|].
    pose proof (unique_ok_at _ _ _ Hu Hat) as H. now rewrite unique_ok_dir in H.
  - intros k Hk. rewrite !node_at_app, Hd, Hat. simpl. now rewrite get_remove.
Qed.

Lemma deleteFile_success_witness :
  node_at (root (fst (VFS.deleteFile VFS.new "/readme.txt"))) ["readme.txt"] = None.
Proof.
  destruct (deleteFile_success VFS.new "/readme.txt"
              (fst (VFS.deleteFile VFS.new "/readme.txt")) eq_refl eq_refl)
    as (d & nm & ch & name & content & type & Hres & _ & _ & _ & Hgone & _).
  injection Hres as <-. exact Hgone.
Defined.

(** * Further properties of the dispatcher *)

(** ** The command history *)

Lemma runCommand_history_step fuel : forall host input w c,
  Lib.runCommand fuel host input w = Some c ->
  commandHistory (state_of c) = commandHistory w
  \/ exists line,
       commandHistory (state_of c) = (commandHistory w ++ [line])%list
       /\ Lib.lastDiffers (commandHistory w) line = true
       /\ storable line = true.
Proof.
  induction fuel as [|fuel IH]; intros host input w c; [discriminate|].
  rewrite runCommand_unfold. destruct (JsString.trim input) as [|a s] eqn:T.
  - intros [= <-]. now left.
  - destruct (JsString.startsWith (String a s) "!") eqn:B.
    + destruct (Lib.historyAt _ _) as [[|c' r']|].
      * intros [= <-]. now left.
      * intros H. apply IH in H. exact H.
      * intros [= <-]. now left.
    + intros [= <-]. rewrite dispatch_commandHistory.
      destruct (Lib.lastDiffers _ _) eqn:L; [|now left].
      right. exists (String a s). repeat split; try assumption.
      rewrite <- T. apply trimmed_storable; rewrite T; [discriminate | exact B].
Qed.

(** X11.  Whatever line is dispatched, the command history keeps its entries and
    gains at most one, which differs from the entry before it and is not a
    recall; no command, [clear] included, takes anything out of it. *)
Theorem history_grows_by_at_most_one fuel host input w c :
  Lib.runCommand fuel host input w = Some c ->
  commandHistory (state_of c) = commandHistory w
  \/ exists line,
       commandHistory (state_of c) = (commandHistory w ++ [line])%list
       /\ Lib.lastDiffers (commandHistory w) line = true
       /\ storable line = true.
Proof. apply runCommand_history_step. Qed.

Lemma history_grows_by_at_most_one_witness :
  let host := mkHost "" (fun _ _ => 0%Z) in
  let w := session 2 host ["ls"; "clear"] (Lib.new Term.new VFS.new Executor.new) in
  commandHistory (state_of (Lib.dispatch host "clear" w)) = commandHistory w
  \/ exists line,
       commandHistory (state_of (Lib.dispatch host "clear" w))
       = (commandHistory w ++ [line])%list
       /\ Lib.lastDiffers (commandHistory w) line = true
       /\ storable line = true.
Proof.
  exact (history_grows_by_at_most_one 1 (mkHost "" (fun _ _ => 0%Z)) " clear "
           (session 2 (mkHost "" (fun _ _ => 0%Z)) ["ls"; "clear"]
              (Lib.new Term.new VFS.new Executor.new))
           _ eq_refl).
Defined.

Lemma noRepeat_snoc h x :
  noRepeat h = true -> Lib.lastDiffers h x = true -> noRepeat (h ++ [x]) = true.
Proof.
  induction h as [|a h IH]; [reflexivity|].
  destruct h as [|b h'].
  - simpl. intros _ H. now rewrite H.
  - intros Hn Hl.
    change (noRepeat ((a :: b :: h') ++ [x]))
      with (negb (String.eqb a b) && noRepeat ((b :: h') ++ [x])).
    change (noRepeat (a :: b :: h')) with (negb (String.eqb a b) && noRepeat (b :: h')) in Hn.
    rewrite andb_true_iff in *. destruct Hn as [Hab Hr]. split; [exact Hab|].
    apply IH; [exact Hr|]. exact Hl.
Qed.

(** X12.  In every session the command history has no two equal entries next to
    each other. *)
Theorem history_has_no_repeats w :
  reachable w -> noRepeat (commandHistory w) = true.
Proof.
  induction 1 as [t os ex | fuel host input w c _ IH Hrun | w t os ex _ IH].
  - reflexivity.
  - destruct (runCommand_history_step _ _ _ _ _ Hrun) as [E | (line & E & L & _)];
      rewrite E; [exact IH | now apply noRepeat_snoc].
  - exact IH.
Qed.

Lemma history_has_no_repeats_witness :
  noRepeat (commandHistory
              (session 2 (mkHost "" (fun _ _ => 0%Z)) ["ls"; "ls"; "pwd"; "!2"; "!1"]
                 (Lib.new Term.new VFS.new Executor.new))) = true.
Proof.
  apply history_has_no_repeats. apply reachable_session. apply reach_new.
Defined.

(** X13.  A recall whose number is missing, below 1 or beyond the length of the
    history prints that the index is invalid and does nothing else. *)
Theorem invalid_recall_is_reported fuel host input w :
  JsString.startsWith (JsString.trim input) "!" = true ->
  match JsString.parseInt (JsString.substring1 (JsString.trim input)) with
  | None => True
  | Some n => (n < 1 \/ Z.of_nat (List.length (commandHistory w)) < n)%Z
  end ->
  Lib.runCommand (S fuel) host input w
  = Some (Normal (Lib.print "Invalid history index." w)).
Proof.
  intros Hbang Hidx. rewrite runCommand_unfold.
  destruct (JsString.trim input) as [|a s]; [discriminate|].
  rewrite Hbang.
  assert (E : Lib.historyAt (commandHistory w)
                (option_map (fun n => (n - 1)%Z)
                   (JsString.parseInt (JsString.substring1 (String a s)))) = None).
  { destruct (JsString.parseInt _) as [n|]; [|reflexivity]. cbn [option_map Lib.historyAt].
    destruct (0 <=? n - 1)%Z eqn:P; [|reflexivity].
    apply Z.leb_le in P. apply nth_error_None. cbv beta iota in Hidx. lia. }
  now rewrite E.
Qed.

Lemma invalid_recall_is_reported_witness :
  Lib.runCommand 1 (mkHost "" (fun _ _ => 0%Z)) "!0"
    (session 2 (mkHost "" (fun _ _ => 0%Z)) ["ls"] (Lib.new Term.new VFS.new Executor.new))
  = Some (Normal (Lib.print "Invalid history index."
                    (session 2 (mkHost "" (fun _ _ => 0%Z)) ["ls"]
                       (Lib.new Term.new VFS.new Executor.new)))).
Proof.
  apply invalid_recall_is_reported; [vm_compute; reflexivity|].
  vm_compute. left. reflexivity.
Defined.

(** ** Addon sessions *)

(** X14.  While an addon is active, a line that is not a recall is stored and
    handed, trimmed, to the input hook of the addon, whatever command it
    names; only [exit], in any case of letters, goes to [stopAddon]. *)
Theorem active_addon_takes_every_line fuel host input w a :
  activeAddon (addonExecutor w) = Some a ->
  JsString.trim input <> EmptyString ->
  JsString.startsWith (JsString.trim input) "!" = false ->
  let line := JsString.trim input in
  let stored :=
    if Lib.lastDiffers (commandHistory w) line
    then with_commandHistory (commandHistory w ++ [line]) w else w in
  Lib.runCommand (S fuel) host input w
  = Some (if String.eqb (JsString.toLowerCase line) "exit"
          then Executor.stopAddon stored
          else call (onCommand a line) stored).
Proof.
  intros Ha Hne Hb line stored. rewrite runCommand_unfold. fold line.
  subst stored. destruct line as [|c r] eqn:E; [contradiction|].
  unfold line in *. rewrite E in Hb. rewrite Hb. unfold Lib.dispatch.
  assert (Ha' : activeAddon
                  (addonExecutor
                     (if Lib.lastDiffers (commandHistory w) (String c r)
                      then with_commandHistory (commandHistory w ++ [String c r]) w
                      else w)) = Some a).
  { destruct (Lib.lastDiffers _ _); exact Ha. }
  rewrite Ha'. destruct (String.eqb _ "exit"); [reflexivity|].
  unfold Executor.handleCommand. now rewrite Ha'.
Qed.

Lemma active_addon_takes_every_line_witness :
  Lib.runCommand 1 (mkHost "" (fun _ _ => 0%Z)) " mkdir /x "
    (session 2 (mkHost "" (fun _ _ => 0%Z)) ["run game"]
       (Lib.new Term.new VFS.new (Executor.registerAddon (baseAddon "Game") Executor.new)))
  = Some (call (onCommand (baseAddon "Game") "mkdir /x")
            (with_commandHistory ["run game"; "mkdir /x"]
               (session 2 (mkHost "" (fun _ _ => 0%Z)) ["run game"]
                  (Lib.new Term.new VFS.new
                     (Executor.registerAddon (baseAddon "Game") Executor.new))))).
Proof.
  refine (active_addon_takes_every_line 0 (mkHost "" (fun _ _ => 0%Z)) " mkdir /x "
            (session 2 (mkHost "" (fun _ _ => 0%Z)) ["run game"]
               (Lib.new Term.new VFS.new
                  (Executor.registerAddon (baseAddon "Game") Executor.new)))
            (baseAddon "Game") eq_refl _ eq_refl).
  discriminate.
Defined.

(** X15.  A hook that throws leaves the session manager where the throw found it:
    an addon whose start hook throws is active all the same, and an addon
    whose stop hook throws stays active, with the error passed on. *)
Theorem throwing_hooks_leave_addon_active w name addon e t os :
  (activeAddon (addonExecutor w) = None ->
   Dict.get (JsString.toLowerCase name) (addons (addonExecutor w)) = Some addon ->
   onStart addon (term w) (vOS w) = Abrupt e (t, os) ->
   exists w1, Executor.startAddon name w = Abrupt e w1
              /\ activeAddon (addonExecutor w1) = Some addon)
  /\ (activeAddon (addonExecutor w) = Some addon ->
      onStop addon (term w) (vOS w) = Abrupt e (t, os) ->
      exists w1, Executor.stopAddon w = Abrupt e w1
                 /\ activeAddon (addonExecutor w1) = Some addon
                 /\ term w1 = t).
Proof.
  split.
  - intros Hidle Hget Hthrow. unfold Executor.startAddon, call.
    rewrite Hidle, Hget. cbn [term vOS with_activeAddon]. rewrite Hthrow.
    eexists. split; reflexivity.
  - intros Ha Hthrow. unfold Executor.stopAddon, call. rewrite Ha, Hthrow.
    eexists. split; [reflexivity|]. split; [exact Ha | reflexivity].
Qed.

Lemma throwing_hooks_leave_addon_active_witness :
  let bad := mkAddon "bad" (fun t os => Normal (t, os))
               (fun _ t os => Normal (t, os))
               (fun t os => Abrupt (Raised "stop") (t, os)) in
  let w := state_of (Executor.startAddon "bad"
                       (Lib.new Term.new VFS.new (Executor.registerAddon bad Executor.new))) in
  exists w1, Executor.stopAddon w = Abrupt (Raised "stop") w1
             /\ activeAddon (addonExecutor w1) = Some bad
             /\ term w1 = Term.new.
Proof.
  intros bad w.
  exact (proj2 (throwing_hooks_leave_addon_active w "bad" bad (Raised "stop")
                  Term.new VFS.new) eq_refl eq_refl).
Defined.

(** X16.  An addon whose name is not [__proto__] in some case of letters is
    found under its name in any case of letters: right after
    [registerAddon(addon)], [startAddon(name)] on an idle manager starts it
    whenever [name] and the name of the addon agree up to case; addons under
    other names are found as before. *)
Theorem registered_addon_starts w addon name :
  JsString.toLowerCase (addon_name addon) <> "__proto__" ->
  activeAddon (addonExecutor w) = None ->
  JsString.toLowerCase name = JsString.toLowerCase (addon_name addon) ->
  let w' := mkTerminalLib (term w) (vOS w)
              (Executor.registerAddon addon (addonExecutor w)) (commandHistory w) in
  Executor.startAddon name w' = call (onStart addon) (with_activeAddon (Some addon) w')
  /\ forall other,
       JsString.toLowerCase other <> JsString.toLowerCase (addon_name addon) ->
       Dict.get (JsString.toLowerCase other) (addons (addonExecutor w'))
       = Dict.get (JsString.toLowerCase other) (addons (addonExecutor w)).
Proof.
  intros _ Hidle Hname w'. split.
  - unfold Executor.startAddon. cbn [w' addonExecutor Executor.registerAddon activeAddon addons].
    rewrite Hidle, Hname, get_set_same. reflexivity.
  - intros other Hother. cbn [w' addonExecutor Executor.registerAddon addons].
    now apply get_set_other.
Qed.

Lemma registered_addon_starts_witness :
  let w := Lib.new Term.new VFS.new Executor.new in
  let w' := mkTerminalLib (term w) (vOS w)
              (Executor.registerAddon (baseAddon "Snake") (addonExecutor w))
              (commandHistory w) in
  Executor.startAddon "sNAKE" w'
  = call (onStart (baseAddon "Snake")) (with_activeAddon (Some (baseAddon "Snake")) w').
Proof.
  apply (registered_addon_starts (Lib.new Term.new VFS.new Executor.new)
           (baseAddon "Snake") "sNAKE"); [discriminate | reflexivity | reflexivity].
Defined.

(** ** The command registry *)

Lemma get_after_aliases (command : Command) k : forall names cs,
  Dict.get k (fold_left (fun cs alias => Dict.set alias command cs) names cs)
  = if existsb (String.eqb k) names then Some command else Dict.get k cs.
Proof.
  induction names as [|a r IH]; intros cs; simpl; [reflexivity|].
  rewrite IH. destruct (existsb (String.eqb k) r); [now rewrite orb_true_r|].
  rewrite orb_false_r. destruct (String.eqb_spec k a) as [->|Hk].
  - apply get_set_same.
  - now apply get_set_other.
Qed.

(** X17.  After [addCommand(command)], for a command that is not named or
    aliased [__proto__], the name of the command and each of its aliases lead
    to that command, whatever was registered under them before, and every
    other name leads to what it led to. *)
Theorem addCommand_registers command cs k :
  cmd_name command <> "__proto__" ->
  ~ In "__proto__" (aliases command) ->
  Dict.get k (Lib.addCommand command cs)
  = if String.eqb k (cmd_name command) || existsb (String.eqb k) (aliases command)
    then Some command
    else Dict.get k cs.
Proof.
  intros _ _. unfold Lib.addCommand. rewrite get_after_aliases.
  destruct (existsb (String.eqb k) (aliases command)); [now rewrite orb_true_r|].
  rewrite orb_false_r. destruct (String.eqb_spec k (cmd_name command)) as [->|Hk].
  - apply get_set_same.
  - now apply get_set_other.
Qed.

Lemma addCommand_registers_witness :
  Dict.get "time"
    (Lib.addCommand (mkCommand "date" "Displays the current date and time." Date ["time"])
       [("time", mkCommand "time" "old" Echo [])])
  = Some (mkCommand "date" "Displays the current date and time." Date ["time"]).
Proof.
  apply (addCommand_registers
           (mkCommand "date" "Displays the current date and time." Date ["time"])
           [("time", mkCommand "time" "old" Echo [])] "time").
  - discriminate.
  - simpl. intros [H|[]]. discriminate H.
Defined.

(** ** What the built-in commands print *)

Lemma fold_print_history (lines : list string) : forall w,
  history (term (fold_left (fun w line => Lib.print line w) lines w))
  = (history (term w) ++ lines)%list
  /\ vOS (fold_left (fun w line => Lib.print line w) lines w) = vOS w.
Proof.
  induction lines as [|l r IH]; intros w; simpl.
  - now rewrite app_nil_r.
  - destruct (IH (Lib.print l w)) as [-> ->]. simpl. now rewrite <- app_assoc.
Qed.

(** X18.  [cat] of a text file prints its content line by line, one output line for
    each part between line feeds, so an empty file gives one empty line; the
    file system is left alone. *)
Theorem cat_prints_the_lines host w path r name content :
  path <> EmptyString ->
  VFS._resolvePath (vOS w) path = Some r ->
  node_at (root (vOS w)) r = Some (VFile name content "text") ->
  exists w',
    Lib.executeHandler host Cat [path] w = Normal w'
    /\ history (term w') = (history (term w) ++ JsString.split Lib.newline content)%list
    /\ JsString.split Lib.newline content <> []
    /\ vOS w' = vOS w.
Proof.
  intros Hne Hres Hat. destruct path as [|c p]; [contradiction|].
  cbn [Lib.executeHandler Lib.arg0_or Lib.arg0 hd_error]. unfold Lib.catNode.
  rewrite Hres, Hat. cbn [String.eqb Ascii.eqb Bool.eqb].
  eexists. split; [reflexivity|].
  destruct (fold_print_history (JsString.split Lib.newline content) w) as [H1 H2].
  split; [exact H1|]. split; [apply split_not_nil | exact H2].
Qed.

Lemma cat_prints_the_lines_witness :
  exists w',
    Lib.executeHandler (mkHost "" (fun _ _ => 0%Z)) Cat ["/empty"]
      (Lib.new Term.new (fst (VFS.createFile VFS.new "/empty" "" "text")) Executor.new)
    = Normal w'
    /\ history (term w') = [""].
Proof.
  destruct (cat_prints_the_lines (mkHost "" (fun _ _ => 0%Z))
              (Lib.new Term.new (fst (VFS.createFile VFS.new "/empty" "" "text")) Executor.new)
              "/empty" ["empty"] "empty" "") as (w' & H1 & H2 & _);
    [discriminate | reflexivity | reflexivity |].
  exists w'. split; [exact H1 | exact H2].
Defined.

(** X19.  [ls] of a path that does not resolve, or that resolves to a file, prints
    [Empty directory.], as it does for a directory without children. *)
Theorem ls_of_no_directory host w path :
  path <> EmptyString ->
  (forall r nm ch,
     VFS._resolvePath (vOS w) path = Some r ->
     node_at (root (vOS w)) r = Some (VDirectory nm ch) -> ch = []) ->
  Lib.executeHandler host Ls [path] w = Normal (Lib.print "Empty directory." w).
Proof.
  intros Hne H. destruct path as [|c p]; [contradiction|].
  cbn [Lib.executeHandler Lib.arg0_or Lib.arg0 hd_error]. unfold VFS.listFiles.
  destruct (VFS._resolvePath (vOS w) (String c p)) as [r|]; [|reflexivity].
  destruct (node_at (root (vOS w)) r) as [[|nm ch]|] eqn:Hat; try reflexivity.
  now rewrite (H r nm ch eq_refl Hat).
Qed.

Lemma ls_of_no_directory_witness :
  Lib.executeHandler (mkHost "" (fun _ _ => 0%Z)) Ls ["/nowhere"]
    (Lib.new Term.new VFS.new Executor.new)
  = Normal (Lib.print "Empty directory." (Lib.new Term.new VFS.new Executor.new)).
Proof.
  apply ls_of_no_directory; [discriminate|].
  intros r nm ch H. discriminate H.
Defined.

Lemma printTree_dir nm ch prefix t :
  Lib._printTreeRecursive (VDirectory nm ch) prefix t = printChildren ch prefix t.
Proof.
  cbn [Lib._printTreeRecursive]. revert t.
  induction ch as [|[k c] rest IH]; intros t; [reflexivity|].
  cbn [printChildren]. destruct c as [|nm' ch']; apply IH.
Qed.

Lemma descendants_dir nm ch : descendants (VDirectory nm ch) = descendants_of ch.
Proof.
  simpl. induction ch as [|[k c] r IH]; simpl; [reflexivity | now rewrite IH].
Qed.

Lemma printTree_lines n : forall prefix t,
  List.length (history (Lib._printTreeRecursive n prefix t))
  = List.length (history t) + descendants n.
Proof.
  induction n as [nm c ty | nm ch IH] using Node_nested_ind; intros prefix t.
  - simpl. lia.
  - rewrite printTree_dir, descendants_dir. revert t.
    induction ch as [|[k c] rest IHrest]; intros t; [simpl; lia|].
    inversion IH as [|? ? Hc Hrest]; subst. cbn [snd] in Hc.
    cbn [printChildren descendants_of]. destruct c as [nm' ct ty|nm' ch'].
    + rewrite (IHrest Hrest). simpl. rewrite length_app. simpl. lia.
    + rewrite (IHrest Hrest), Hc. cbn [Term.print history].
      rewrite length_app. simpl. lia.
Qed.

(** X20.  [tree] of a directory prints its full path and then one line for every
    node anywhere below it. *)
Theorem tree_prints_one_line_per_node host w path r nm ch :
  path <> EmptyString ->
  VFS._resolvePath (vOS w) path = Some r ->
  node_at (root (vOS w)) r = Some (VDirectory nm ch) ->
  exists w' lines,
    Lib.executeHandler host Tree [path] w = Normal w'
    /\ history (term w')
       = (history (term w) ++ VFS._getFullPath (vOS w) r :: lines)%list
    /\ List.length lines = descendants (VDirectory nm ch).
Proof.
  intros Hne Hres Hat. destruct path as [|c p]; [contradiction|].
  cbn [Lib.executeHandler Lib.arg0_or Lib.arg0 hd_error]. rewrite Hres, Hat.
  set (t1 := Term.print (VFS._getFullPath (vOS w) r) (term w)).
  set (t2 := Lib._printTreeRecursive (VDirectory nm ch) EmptyString t1).
  assert (Hpre : forall n prefix t,
             exists more, history (Lib._printTreeRecursive n prefix t)
                          = (history t ++ more)%list).
  { clear. induction n as [nm c ty | nm ch IH] using Node_nested_ind; intros prefix t.
    - exists []. simpl. now rewrite app_nil_r.
    - rewrite printTree_dir. revert t.
      induction ch as [|[k c] rest IHrest]; intros t.
      + exists []. simpl. now rewrite app_nil_r.
      + inversion IH as [|? ? Hc Hrest]; subst. cbn [snd] in Hc.
        cbn [printChildren]. destruct c as [nm' ct ty|nm' ch'].
        * match goal with
          | |- context [printChildren rest prefix ?T] =>
              destruct (IHrest Hrest T) as [more E]; rewrite E
          end.
          simpl. rewrite <- app_assoc. now eexists.
        * match goal with
          | |- context [printChildren rest prefix ?T] =>
              destruct (IHrest Hrest T) as [more E]; rewrite E
          end.
          match goal with
          | |- context [Lib._printTreeRecursive ?N ?P ?T] =>
              destruct (Hc P T) as [more' E']; rewrite E'
          end.
          simpl. rewrite <- !app_assoc. now eexists. }
  destruct (Hpre (VDirectory nm ch) EmptyString t1) as [lines E].
  exists (with_term (fun _ => t2) (Lib.print (VFS._getFullPath (vOS w) r) w)), lines.
  split; [reflexivity|].
  assert (Hh : history t2 = (history (term w) ++ VFS._getFullPath (vOS w) r :: lines)%list).
  { unfold t2. rewrite E. unfold t1. simpl. now rewrite <- app_assoc. }
  split; [exact Hh|].
  pose proof (printTree_lines (VDirectory nm ch) EmptyString t1) as L. fold t2 in L.
  remember (descendants (VDirectory nm ch)) as D.
  rewrite Hh in L. unfold t1 in L. simpl in L. rewrite !length_app in L. simpl in L. lia.
Qed.

Lemma tree_prints_one_line_per_node_witness :
  exists w' lines,
    Lib.executeHandler (mkHost "" (fun _ _ => 0%Z)) Tree ["/"]
      (Lib.new Term.new VFS.new Executor.new) = Normal w'
    /\ history (term w') = ("/" :: lines)%list
    /\ List.length lines = 5.
Proof.
  destruct (tree_prints_one_line_per_node (mkHost "" (fun _ _ => 0%Z))
              (Lib.new Term.new VFS.new Executor.new) "/" [] "/"
              [("C", VDirectory "C" [("Users", VDirectory "Users" []);
                                     ("Program Files", VDirectory "Program Files" [])]);
               ("D", VDirectory "D" []);
               ("readme.txt", VFile "readme.txt" "Welcome to the terminal!" "text")])
    as (w' & lines & H1 & H2 & H3); [discriminate | reflexivity | reflexivity |].
  exists w', lines. repeat split; assumption.
Defined.

(** X21.  After [cd] into a path made of real segment names, [pwd] prints the
    normalized absolute form of that path. *)
Theorem cd_then_pwd host w path os' :
  wellFormed (vOS w) = true ->
  path <> EmptyString ->
  ~ In "." (VFS.segments path) ->
  ~ In ".." (VFS.segments path) ->
  VFS.changeDir (vOS w) path = (os', true) ->
  Lib.executeHandler host Cd [path] w = Normal (with_vOS os' w)
  /\ Lib.executeHandler host Pwd [] (with_vOS os' w)
     = Normal (Lib.print (normalized (vOS w) path) (with_vOS os' w)).
Proof.
  intros Hwf Hne Hdot Hdd Hcd. destruct path as [|c p]; [contradiction|]. split.
  - cbn [Lib.executeHandler Lib.arg0 hd_error]. now rewrite Hcd.
  - cbn [Lib.executeHandler]. f_equal. f_equal.
    unfold VFS.changeDir in Hcd.
    destruct (VFS._resolvePath (vOS w) (String c p)) as [d|] eqn:Hres; [|discriminate].
    destruct (node_at (root (vOS w)) d) as [[|nm ch]|] eqn:Hat; try discriminate.
    injection Hcd as <-. cbn [vOS with_vOS cwd].
    rewrite getFullPath_live;
      [| cbn [root]; now apply wellFormed_names | cbn [root]; rewrite Hat; discriminate].
    unfold normalized. f_equal.
    unfold VFS._resolvePath in Hres.
    destruct (String.eqb_spec (String c p) "/") as [E|_].
    + injection Hres as <-. rewrite E. reflexivity.
    + apply walk_real in Hres; try assumption; [tauto|].
      destruct (JsString.startsWith (String c p) "/");
        [discriminate | now apply wellFormed_cwd].
Qed.

Lemma cd_then_pwd_witness :
  Lib.executeHandler (mkHost "" (fun _ _ => 0%Z)) Pwd []
    (with_vOS (fst (VFS.changeDir VFS.new "C//Users/"))
       (Lib.new Term.new VFS.new Executor.new))
  = Normal (Lib.print "/C/Users"
              (with_vOS (fst (VFS.changeDir VFS.new "C//Users/"))
                 (Lib.new Term.new VFS.new Executor.new))).
Proof.
  refine (proj2 (cd_then_pwd (mkHost "" (fun _ _ => 0%Z))
                   (Lib.new Term.new VFS.new Executor.new) "C//Users/"
                   (fst (VFS.changeDir VFS.new "C//Users/")) eq_refl _ _ _ eq_refl)).
  - discriminate.
  - simpl. intros [H|[H|[]]]; discriminate H.
  - simpl. intros [H|[H|[]]]; discriminate H.
Defined.

(** ** Sessions without addons *)

Section Quiet.

(** An observation of the session that does not look at the terminal or at
    the file system. *)
Variable X : Type.
Variable observe : TerminalLib -> X.
Hypothesis observe_quiet :
  forall t os ex h t' os',
    observe (mkTerminalLib t os ex h) = observe (mkTerminalLib t' os' ex h).


Lemma with_vOS_quiet os w : observe (with_vOS os w) = observe w.
Proof. destruct w; apply observe_quiet. Qed.




End Quiet.




(** The lines left out above do throw: the command lookup and the addon
    lookup find the inherited [constructor], which has neither [execute] nor
    [onStart]; after [run constructor] it is the active addon. *)
Lemma inherited_names_throw host :
  Lib.runCommand 1 host "constructor" (Lib.new Term.new VFS.new Executor.new)
  = Some (Abrupt (TypeError "command.execute is not a function")
            (with_commandHistory ["constructor"] (Lib.new Term.new VFS.new Executor.new)))
  /\ Lib.runCommand 1 host "run constructor" (Lib.new Term.new VFS.new Executor.new)
     = Some (Abrupt (TypeError "addon.onStart is not a function")
               (with_activeAddon (Some inheritedMember)
                  (with_commandHistory ["run constructor"]
                     (Lib.new Term.new VFS.new Executor.new)))).
Proof. split; reflexivity. Qed.

Lemma failure_leaves_fs_witness :
  fst (VFS.deleteFile VFS.new "/C") = VFS.new.
Proof.
  destruct (failure_leaves_fs VFS.new "/C" "" "text" (fst (VFS.deleteFile VFS.new "/C")))
    as (_ & _ & H & _).
  apply H. reflexivity.
Defined.

(** ** The tokenizer *)

Lemma occurs_drop q n : forall s, occurs q s = false -> occurs q (Lib.drop n s) = false.
Proof.
  induction n as [|n IH]; intros [|c r] H; try exact H.
  simpl in H. apply orb_false_iff in H. simpl. apply IH. tauto.
Qed.

Lemma wordLen_after_word s :
  occurs JsString.dquote s = false ->
  Lib.wordLen (Lib.drop (Lib.wordLen s) s) = 0.
Proof.
  induction s as [|c r IH]; [reflexivity|]. intros H.
  simpl in H. apply orb_false_iff in H. destruct H as [Hc Hr].
  cbn [Lib.wordLen]. rewrite Hc, orb_false_r.
  destruct (JsString.isWhiteSpace c) eqn:W.
  - cbn [Lib.drop Lib.wordLen]. now rewrite W.
  - cbn [Lib.drop]. now apply IH.
Qed.

Lemma pieceLen_quote_free s :
  occurs JsString.dquote s = false -> Lib.pieceLen s = Lib.wordLen s.
Proof.
  destruct s as [|c r]; [reflexivity|]. intros H.
  simpl in H. apply orb_false_iff in H. destruct H as [Hc _].
  unfold Lib.pieceLen. now rewrite Hc.
Qed.

Lemma tokenLen_quote_free fuel s :
  occurs JsString.dquote s = false -> Lib.tokenLen (S fuel) s = Lib.wordLen s.
Proof.
  intros H. cbn [Lib.tokenLen]. rewrite pieceLen_quote_free by exact H.
  destruct (Lib.wordLen s) as [|n] eqn:E; [reflexivity|].
  destruct fuel as [|fuel]; [simpl; lia|]. cbn [Lib.tokenLen].
  rewrite pieceLen_quote_free by (now apply occurs_drop).
  rewrite <- E, wordLen_after_word by exact H. lia.
Qed.

Lemma word_has_no_space s :
  Forall (fun c => JsString.isWhiteSpace c = false)
    (list_ascii_of_string (String.substring 0 (Lib.wordLen s) s)).
Proof.
  induction s as [|c r IH]; [constructor|].
  cbn [Lib.wordLen]. destruct (JsString.isWhiteSpace c || Ascii.eqb c JsString.dquote) eqn:E.
  - constructor.
  - apply orb_false_iff in E. simpl. constructor; [tauto | exact IH].
Qed.

(** X23.  No token is empty, and when the line holds no double quote no token holds
    white space: the tokens of such a line are its words. *)
Theorem tokens_are_words input :
  Forall (fun t => JsString.nonEmpty t = true) (Lib.tokenize input)
  /\ (occurs JsString.dquote input = false ->
      Forall (fun t => Forall (fun c => JsString.isWhiteSpace c = false)
                         (list_ascii_of_string t))
        (Lib.tokenize input)).
Proof.
  unfold Lib.tokenize. generalize (String.length input) as fuel. intros fuel. split.
  - revert input. induction fuel as [|fuel IH]; intros [|c r]; try constructor.
    cbn [Lib.scanTokens].
    destruct (Lib.tokenLen (String.length (String c r)) (String c r)) as [|n];
      [apply IH|].
    constructor; [reflexivity | apply IH].
  - revert input. induction fuel as [|fuel IH]; intros [|c r] H; try constructor.
    cbn [Lib.scanTokens]. cbn [String.length].
    rewrite tokenLen_quote_free by exact H.
    destruct (Lib.wordLen (String c r)) as [|n] eqn:E.
    + apply IH. simpl in H. apply orb_false_iff in H. tauto.
    + constructor; [rewrite <- E; apply word_has_no_space|].
      apply IH. now apply occurs_drop.
Qed.

Lemma tokens_are_words_witness :
  Forall (fun t => Forall (fun c => JsString.isWhiteSpace c = false)
                     (list_ascii_of_string t))
    (Lib.tokenize "echo   hello    world").
Proof.
  apply (proj2 (tokens_are_words "echo   hello    world")). reflexivity.
Defined.
